(** * tfexplorer: reservation pipeline, node polling, currency admission,
      phonebook user creation and proof hashing

    Shallow embedding of
      - pkg/workloads/types/pipeline.go   (Pipeline.Next and the quorum checks)
      - pkg/workloads/reservation.go      (API.create, API.queued, API.workloads,
                                           API.workloadGet)
      - the phonebook types file          (UserFilter.Get, UserCreate)
      - the directory node API file       (hashProof, NodeAPI.StoreProof)

    Conventions.  Go's int64 values are carried as [Z]; time instants are [Z]
    (a point on the clock, any fixed unit).  A Go [string] is a Rocq [string],
    a []byte a [list byte].  Every reading of [time.Now()] made while one
    request is served is the single instant [now] given to the model. *)

From Stdlib Require Import ZArith List Bool Lia String Ascii DecimalString DecimalPos.
From Stdlib.Strings Require Import Byte.
From stdpp Require Import base decidable option list gmap strings.

Import ListNotations.
Local Open Scope Z_scope.

(* ===================================================================== *)
(** ** Generated model types (models/generated/workloads)                 *)
(* ===================================================================== *)

Module generated.

(** Modelled from the spec: the NextAction enum of the generated models
    ("Create, Sign, Pay, Deploy, Delete, Deleted, plus sink Invalid"); the
    declaration itself lives in the generated models package. *)
Inductive NextActionEnum : Type :=
| NextActionCreate
| NextActionSign
| NextActionPay
| NextActionDeploy
| NextActionDelete
| NextActionInvalid
| NextActionDeleted.

(** Modelled from the spec: result states "OK, Error, Deleted". *)
Inductive ResultStateEnum : Type :=
| ResultStateError
| ResultStateOK
| ResultStateDeleted.

(** Workload kinds dispatched on by [API.queued]. *)
Inductive WorkloadTypeEnum : Type :=
| WorkloadTypeZDB
| WorkloadTypeContainer
| WorkloadTypeVolume
| WorkloadTypeNetwork
| WorkloadTypeKubernetes
| WorkloadTypeProxy
| WorkloadTypeReverseProxy
| WorkloadTypeSubDomain
| WorkloadTypeDomainDelegate
| WorkloadTypeGateway4To6.

Record SigningSignature : Type := mkSigningSignature {
  Tid : Z;
  Signature : string;
  SigEpoch : Z
}.

Record SigningRequest : Type := mkSigningRequest {
  Signers : list Z;
  QuorumMin : Z
}.

Record Result : Type := mkResult {
  ResWorkloadId : string;
  ResNodeId : string;
  ResEpoch : Z;
  State : ResultStateEnum;
  DataJson : string;
  ResSignature : string
}.

(** One typed workload of a reservation payload.  [WorkloadIdx] is the
    per-reservation index, [DefNodeId] the node (or gateway) it is addressed
    to; [Payload] stands for the type-specific fields. *)
Record WorkloadDef : Type := mkWorkloadDef {
  WorkloadIdx : Z;
  DefNodeId : string;
  DefType : WorkloadTypeEnum;
  Payload : string
}.

Record ReservationData : Type := mkReservationData {
  ExpirationProvisioning : Z;
  ExpirationReservation : Z;
  Currencies : list string;
  SigningRequestProvision : SigningRequest;
  SigningRequestDelete : SigningRequest;
  WorkloadDefs : list WorkloadDef
}.

(** The unit handed to a node: [ReservationWorkload] plus the node id. *)
Record ReservationWorkload : Type := mkReservationWorkload {
  WorkloadId : string;
  User : string;
  Type_ : WorkloadTypeEnum;
  Content : string;
  Created : Z;
  Duration : Z;
  WlSignature : string;
  ToDelete : bool
}.

Record Reservation : Type := mkReservation {
  ID : Z;
  CustomerTid : Z;
  CustomerSignature : string;
  Epoch : Z;
  NextAction : NextActionEnum;
  DataReservation : ReservationData;
  SignaturesProvision : list SigningSignature;
  SignaturesDelete : list SigningSignature;
  SignaturesFarmer : list SigningSignature;
  Results : list Result
}.

End generated.

Export generated.

#[global] Instance NextActionEnum_eq_dec : EqDecision NextActionEnum.
Proof. solve_decision. Defined.

#[global] Instance ResultStateEnum_eq_dec : EqDecision ResultStateEnum.
Proof. solve_decision. Defined.

#[global] Instance WorkloadTypeEnum_eq_dec : EqDecision WorkloadTypeEnum.
Proof. solve_decision. Defined.

(* ===================================================================== *)
(** ** pkg/workloads/types: the Reservation type and its pipeline         *)
(* ===================================================================== *)

Module types.

Definition Time : Type := Z.

(** [p.r.NextAction = a], the one field the pipeline ever assigns. *)
Definition setNextAction (r : Reservation) (a : NextActionEnum) : Reservation :=
  {| ID := ID r;
     CustomerTid := CustomerTid r;
     CustomerSignature := CustomerSignature r;
     Epoch := Epoch r;
     NextAction := a;
     DataReservation := DataReservation r;
     SignaturesProvision := SignaturesProvision r;
     SignaturesDelete := SignaturesDelete r;
     SignaturesFarmer := SignaturesFarmer r;
     Results := Results r |}.

(** Modelled from the spec: [Reservation.Expired], declared next to the
    Reservation type (not in pipeline.go); "now >= expiration_reservation". *)
Definition Expired (r : Reservation) (now : Time) : bool :=
  ExpirationReservation (DataReservation r) <=? now.

(** Modelled from the spec: [Reservation.IsAny]. *)
Definition IsAny (r : Reservation) (actions : list NextActionEnum) : bool :=
  existsb (fun a => bool_decide (NextAction r = a)) actions.

(** The node-facing workload record: a [ReservationWorkload] and its node. *)
Record Workload : Type := mkWorkload {
  RW : ReservationWorkload;
  NodeID : string
}.

Definition string_of_Z (z : Z) : string :=
  NilZero.string_of_int (Z.to_int z).

(** Modelled from the spec: workload ids have the form
    "<reservation_id>-<index>". *)
Definition gwidOf (rid idx : Z) : string :=
  String.append (string_of_Z rid) (String.append "-" (string_of_Z idx)).

(** Modelled from the spec: [Reservation.Workloads(nodeID)], declared next
    to the Reservation type: one unit per workload of the payload, restricted to
    the workloads addressed to [nodeID]; the empty node id selects them all
    (see the callers' comment in reservation.go).  Units of a reservation in
    [Delete] or [Deleted] carry [to_delete]. *)
Definition toWorkload (r : Reservation) (d : WorkloadDef) : Workload :=
  {| RW := {| WorkloadId := gwidOf (ID r) (WorkloadIdx d);
              User := string_of_Z (CustomerTid r);
              Type_ := DefType d;
              Content := Payload d;
              Created := Epoch r;
              Duration := ExpirationReservation (DataReservation r) - Epoch r;
              WlSignature := CustomerSignature r;
              ToDelete := IsAny r [NextActionDelete; NextActionDeleted] |};
     NodeID := DefNodeId d |}.

Definition Workloads (r : Reservation) (nodeID : string) : list Workload :=
  map (toWorkload r)
      (List.filter (fun d => String.eqb nodeID EmptyString || String.eqb (DefNodeId d) nodeID)
                   (WorkloadDefs (DataReservation r))).

(** Modelled from the spec: "Successfully deployed: for every workload in the
    reservation there exists a result with state = OK and matching
    workload_id". *)
Definition IsSuccessfullyDeployed (r : Reservation) : bool :=
  forallb (fun w =>
             existsb (fun res => bool_decide (State res = ResultStateOK)
                                 && String.eqb (ResWorkloadId res) (WorkloadId (RW w)))
                     (Results r))
          (Workloads r EmptyString).

(** *** pipeline.go *)

(** The closure [in] of both signature checks. *)
Fixpoint in_ (i : Z) (l : list Z) : bool :=
  match l with
  | [] => false
  | x :: l' => if x =? i then true else in_ i l'
  end.

(** The counting loop shared by both checks: [count] goes up by one for each
    signature whose [Tid] is among [signers].  A slice holds fewer than 2^63
    entries, so the int64 counter cannot wrap. *)
Fixpoint countSignatures (signers : list Z) (signatures : list SigningSignature)
         (count : Z) : Z :=
  match signatures with
  | [] => count
  | signature :: rest =>
      if negb (in_ (Tid signature) signers)
      then countSignatures signers rest count
      else countSignatures signers rest (count + 1)
  end.

Definition checkProvisionSignatures (r : Reservation) : bool :=
  let request := SigningRequestProvision (DataReservation r) in
  if QuorumMin request =? 0 then true
  else QuorumMin request <=? countSignatures (Signers request) (SignaturesProvision r) 0.

Definition checkDeleteSignatures (r : Reservation) : bool :=
  let request := SigningRequestDelete (DataReservation r) in
  if QuorumMin request =? 0 then false
  else QuorumMin request <=? countSignatures (Signers request) (SignaturesDelete r) 0.

(** The [switch] inside the loop of [Next]: one stage transition. *)
Definition stage (r : Reservation) : Reservation :=
  match NextAction r with
  | NextActionCreate => setNextAction r NextActionSign
  | NextActionSign =>
      if checkProvisionSignatures r then setNextAction r NextActionPay else r
  | NextActionPay => r
  | NextActionDeploy => r
  | _ => r
  end.

(** The [for { ... }] loop of [Next].  It has no bound in the source; [fuel]
    counts iterations and [None] means the fuel ran out ([stages_fuel] below
    shows that three iterations always reach the [break]). *)
Fixpoint stages (fuel : nat) (r : Reservation) (current : NextActionEnum)
         (modified : bool) : option (Reservation * bool) :=
  match fuel with
  | O => None
  | S fuel' =>
      let r' := stage r in
      if bool_decide (current = NextAction r')
      then Some (r', modified)
      else stages fuel' r' (NextAction r') true
  end.

(** [Pipeline.Next]: the reservation as changed by the pipeline, and whether
    it changed.  [None] only if the stage loop did not finish within [fuel]
    iterations. *)
Definition NextFuel (fuel : nat) (r : Reservation) (now : Time)
  : option (Reservation * bool) :=
  if bool_decide (NextAction r = NextActionDelete)
     || bool_decide (NextAction r = NextActionDeleted)
  then Some (r, false)
  else if Expired r now || checkDeleteSignatures r
  then Some (setNextAction r NextActionDelete, true)
  else if (ExpirationProvisioning (DataReservation r) <? now)
          && negb (IsSuccessfullyDeployed r)
  then Some (setNextAction r NextActionDelete, true)
  else stages fuel r (NextAction r) false.

(** Three iterations are always enough (Create, Sign, then the fixed point),
    see [NextFuel_enough]; [Next] is the total function so obtained. *)
Definition Next (r : Reservation) (now : Time) : Reservation * bool :=
  match NextFuel 3 r now with
  | Some out => out
  | None => (r, false)
  end.

End types.

Import types.

(* ===================================================================== *)
(** ** Go slices of strings, as far as API.create uses them               *)
(* ===================================================================== *)

Module goslice.

(** A slice whose pointer is the start of its backing array: the array
    [arr] and the length [len]; the capacity is the length of the array.
    Elements of the array past [len] are still there and still readable
    through any older slice header of the same array. *)
Record slice : Type := mkSlice {
  arr : list string;
  len : nat
}.

Definition cap (s : slice) : nat := length (arr s).

(** The elements a slice shows: [s[0], ..., s[len-1]]. *)
Definition elems (s : slice) : list string := firstn (len s) (arr s).

(** [dst := make([]string, len(src)); copy(dst, src)]. *)
Definition makeCopy (src : list string) : slice :=
  {| arr := src; len := length src |}.

(** A computation that may stop in a run-time panic. *)
Inductive outcome (A : Type) : Type :=
| Done (a : A)
| Panic.
Arguments Done {A} a.
Arguments Panic {A}.

Definition bind {A B} (o : outcome A) (k : A -> outcome B) : outcome B :=
  match o with
  | Done a => k a
  | Panic => Panic
  end.

(** [s[:i]]: for a slice the upper bound may go up to the capacity. *)
Definition sliceTo (s : slice) (i : nat) : outcome slice :=
  if (i <=? cap s)%nat then Done {| arr := arr s; len := i |} else Panic.

(** [s[i:]], read as the values it shows: the bounds are [i : len(s)], and
    [i > len(s)] is "slice bounds out of range". *)
Definition sliceFrom (s : slice) (i : nat) : outcome (list string) :=
  if (i <=? len s)%nat then Done (skipn i (elems s)) else Panic.

(** [append(a, b...)] when [len(a) + len(b) <= cap(a)]: the values are
    written into the array of [a] right after its elements, and the result
    shares that array.  (With too little capacity append moves to a new
    array; [removeAt] below never gets there, see [removeAt_in_place].) *)
Definition appendInPlace (a : slice) (b : list string) : slice :=
  {| arr := firstn (len a) (arr a) ++ b ++ skipn (len a + length b) (arr a);
     len := len a + length b |}.

(** [append(s[:i], s[i+1:]...)].  Both operands are evaluated first, left to
    right; the source values are read before any is written (append copies
    as memmove does). *)
Definition removeAt (s : slice) (i : nat) : outcome slice :=
  bind (sliceTo s i) (fun a =>
  bind (sliceFrom s (i + 1)) (fun b =>
  Done (appendInPlace a b))).

End goslice.

Import goslice.

(* ===================================================================== *)
(** ** pkg/workloads/reservation.go: the API handlers                     *)
(* ===================================================================== *)

Module API.

(** *** Currency admission in [API.create] *)

Definition freeTFT : string := "FreeTFT".

(** The loop
      for i, c := range currencies {
        if c == freeTFT { currencies = append(currencies[:i], currencies[i+1:]...) }
      }
    [range] fixes the number of iterations and the array when the loop is
    entered; at iteration [i] it reads element [i] of that array, which is
    the array the variable [currencies] keeps sharing.  [n] counts the
    iterations left. *)
Fixpoint rangeCurrencies (n : nat) (i : nat) (currencies : slice) : outcome slice :=
  match n with
  | O => Done currencies
  | S n' =>
      let c := nth i (arr currencies) EmptyString in
      if String.eqb c freeTFT
      then bind (removeAt currencies i) (fun currencies' =>
                 rangeCurrencies n' (S i) currencies')
      else rangeCurrencies n' (S i) currencies
  end.

(** A directory collection reduced to what the count needs: the id of each
    document and its free_to_use flag. *)
Definition Directory : Type := list (string * bool).

(** Modelled from the spec: the filter [WithNodeIDs(ids).WithFreeToUse(true)]
    (and its gateway twin) followed by [Count]: "count how many of those are
    flagged free-to-use in the directory". *)
Definition countFreeToUse (dir : Directory) (ids : list string) : Z :=
  Z.of_nat (length (List.filter
                      (fun d => existsb (String.eqb (fst d)) ids && snd d) dir)).

(** The part of [API.create] between the address validation and the user
    lookup: the list of currencies later handed to
    [escrow.RegisterReservation].  [usedNodes] and [usedGateways] are
    [reservation.NodeIDs()] and [reservation.GatewayIDs()]. *)
Definition freeNodesOf (nodes gateways : Directory)
           (usedNodes usedGateways : list string) : Z :=
  countFreeToUse nodes usedNodes + countFreeToUse gateways usedGateways.

Definition paidNodesOf (usedNodes usedGateways : list string) : Z :=
  Z.of_nat (length usedNodes) + Z.of_nat (length usedGateways).

Definition allowedCurrencies (nodes gateways : Directory)
           (usedNodes usedGateways : list string)
           (declared : list string) : outcome (list string) :=
  let freeNodes := freeNodesOf nodes gateways usedNodes usedGateways in
  let paidNodes := paidNodesOf usedNodes usedGateways in
  let currencies := makeCopy declared in
  if freeNodes <? paidNodes
  then bind (rangeCurrencies (len currencies) 0 currencies) (fun currencies' =>
       Done (elems currencies'))
  else Done (elems currencies).

(** *** Node polling and workload lookup *)

(** The store, as the handlers see it: the reservation collection in
    ascending id order and the per-node workload queue in insertion order.
    Store calls do not fail in this model. *)
Record DB : Type := mkDB {
  reservations : list Reservation;
  queue : list Workload
}.

(** Calls a handler makes on the store and on escrow, in program order. *)
Inductive Event : Type :=
| QueueFind (nodeID : string) (limit : Z)
| ReservationLastID
| ReservationFind (from : Z) (nodeID : string)
| ReservationGet (id : Z)
| EscrowReservationCanceled (id : Z)
| ReservationSetNextAction (id : Z) (action : NextActionEnum).

(** [mw.Response]: [nil], or a status with its headers. *)
Inductive Response : Type :=
| ResponseNil
| ResponseOk (headers : list (string * string))
| ResponseBadRequest
| ResponseNotFound
| ResponseError.

(** [strconv.ParseInt(s, 10, 64)]: an optional sign, then one or more
    decimal digits, the value within int64; [None] stands for the error. *)
Definition digitOf (c : ascii) : option Z :=
  let n := Z.of_nat (nat_of_ascii c) in
  if (48 <=? n) && (n <=? 57) then Some (n - 48) else None.

Fixpoint parseDigits (s : string) (acc : Z) : option Z :=
  match s with
  | EmptyString => Some acc
  | String c rest =>
      match digitOf c with
      | Some d => parseDigits rest (acc * 10 + d)
      | None => None
      end
  end.

Definition ParseInt (s : string) : option Z :=
  let '(neg, body) :=
    match s with
    | String "+" rest => (false, rest)
    | String "-" rest => (true, rest)
    | _ => (false, s)
    end in
  match body with
  | EmptyString => None
  | _ =>
      match parseDigits body 0 with
      | Some n =>
          let v := if neg then - n else n in
          if (- 2 ^ 63 <=? v) && (v <? 2 ^ 63) then Some v else None
      | None => None
      end
  end.

Definition parseID (id : string) : option Z := ParseInt id.

(** [strings.Split(s, "-")[0]]: the text before the first dash. *)
Fixpoint beforeDash (s : string) : string :=
  match s with
  | EmptyString => EmptyString
  | String c rest => if Ascii.eqb c "-" then EmptyString else String c (beforeDash rest)
  end.

(** [API.pipeline(r, nil)]: [NewPipeline] never fails. *)
Definition pipeline (r : Reservation) (now : Time) : Reservation :=
  fst (Next r now).

(** [API.queued]: the queue rows of [nodeID], at most [limit] of them
    ([SetLimit]; zero means no limit), each turned into a [Workload] with its
    content decoded by type.  Rows are taken to decode. *)
Definition queued (db : DB) (nodeID : string) (limit : Z) : list Workload :=
  let rows := List.filter (fun w => String.eqb (NodeID w) nodeID) (queue db) in
  if limit =? 0 then rows else firstn (Z.to_nat (Z.abs limit)) rows.

(** Modelled from the spec: [ReservationFilter.WithIDGE(from).WithNodeID(nodeID)]
    and [Find]: "reservations with id >= from that touch node_id", by
    ascending id. *)
Definition touches (nodeID : string) (r : Reservation) : bool :=
  existsb (fun d => String.eqb (DefNodeId d) nodeID) (WorkloadDefs (DataReservation r)).

Definition findFromForNode (db : DB) (from : Z) (nodeID : string) : list Reservation :=
  List.filter (fun r => (from <=? ID r) && touches nodeID r) (reservations db).

(** Modelled from the spec: [types.ReservationLastID]: "the current maximum
    reservation id". *)
Definition lastIDOf (db : DB) : Z :=
  fold_right (fun r m => Z.max (ID r) m) 0 (reservations db).

(** Modelled from the spec: [types.ReservationSetNextAction]: "unconditional
    overwrite". *)
Definition storeSetNextAction (db : DB) (id : Z) (a : NextActionEnum) : DB :=
  {| reservations :=
       map (fun r => if ID r =? id then setNextAction r a else r) (reservations db);
     queue := queue db |}.

(** [API.setReservationDeleted]. *)
Definition setReservationDeleted (db : DB) (id : Z) : DB * list Event :=
  (storeSetNextAction db id NextActionDelete,
   [EscrowReservationCanceled id; ReservationSetNextAction id NextActionDelete]).

Definition maxPageSize : Z := 200.

(** The cursor loop of [API.workloads] over the reservations found. *)
Fixpoint scan (cur : list Reservation) (nodeID : string) (now : Time)
         (db : DB) (workloads : list Workload) (trace : list Event)
  : list Workload * DB * list Event :=
  match cur with
  | [] => (workloads, db, trace)
  | reservation0 :: cur' =>
      let reservation := pipeline reservation0 now in
      let '(db1, trace1) :=
        if bool_decide (NextAction reservation = NextActionDelete)
        then let '(db', ev) := setReservationDeleted db (ID reservation) in
             (db', trace ++ ev)
        else (db, trace) in
      if negb (IsAny reservation [NextActionDeploy; NextActionDelete])
      then scan cur' nodeID now db1 workloads trace1
      else
        let workloads' := workloads ++ Workloads reservation nodeID in
        if maxPageSize <=? Z.of_nat (length workloads')
        then (workloads', db1, trace1)
        else scan cur' nodeID now db1 workloads' trace1
  end.

(** [API.workloads]: what a node gets when it polls.  The result is the
    payload ([None] for [nil]), the response, the store afterwards and the
    calls made. *)
Definition workloads (db : DB) (nodeID : string) (from : string) (now : Time)
  : option (list Workload) * Response * DB * list Event :=
  let workloads := queued db nodeID maxPageSize in
  let trace := [QueueFind nodeID maxPageSize] in
  if maxPageSize <? Z.of_nat (length workloads)
  then (Some workloads, ResponseNil, db, trace)
  else
    match parseID from with
    | None => (None, ResponseBadRequest, db, trace)
    | Some from =>
        let lastID := lastIDOf db in
        let cur := findFromForNode db from nodeID in
        let '(workloads', db', trace') :=
          scan cur nodeID now db workloads
               (trace ++ [ReservationLastID; ReservationFind from nodeID]) in
        (Some workloads',
         ResponseOk [("x-last-id"%string, string_of_Z lastID)], db', trace')
    end.

(** Modelled from the spec: [ReservationFilter.WithID(id).Get]:
    "Get(filter) -> reservation | NotFound". *)
Definition getByID (db : DB) (id : Z) : option Reservation :=
  List.find (fun r => ID r =? id) (reservations db).

(** The payload of [API.workloadGet]: the workload and its results. *)
Record WorkloadResult : Type := mkWorkloadResult {
  TheWorkload : Workload;
  TheResult : list Result
}.

(** The first loop of [workloadGet]: the first workload whose id is [gwid]. *)
Definition findWorkload (workloads : list Workload) (gwid : string) : option Workload :=
  List.find (fun wl => String.eqb (WorkloadId (RW wl)) gwid) workloads.

(** The second loop of [workloadGet]: it appends the first result of the
    workload and leaves the loop ([break]). *)
Fixpoint collectResult (results : list Result) (workloadID : string) : list Result :=
  match results with
  | [] => []
  | rs :: rest =>
      if String.eqb (ResWorkloadId rs) workloadID then [rs]
      else collectResult rest workloadID
  end.

(** [API.workloadGet]. *)
Definition workloadGet (db : DB) (gwid : string) (now : Time)
  : option WorkloadResult * Response :=
  match parseID (beforeDash gwid) with
  | None => (None, ResponseBadRequest)
  | Some rid =>
      match getByID db rid with
      | None => (None, ResponseNotFound)
      | Some reservation0 =>
          let reservation := pipeline reservation0 now in
          let workloads := Workloads reservation EmptyString in
          match findWorkload workloads gwid with
          | None => (None, ResponseNotFound)
          | Some workload =>
              (Some {| TheWorkload := workload;
                       TheResult := collectResult (Results reservation)
                                                  (WorkloadId (RW workload)) |},
               ResponseNil)
          end
      end
  end.

End API.

Import API.

(* ===================================================================== *)
(** ** pkg/phonebook/types: the user collection and UserCreate            *)
(* ===================================================================== *)

Module phonebook.

Record User : Type := mkUser {
  UserID : Z;
  Name : string;
  Email : string;
  Pubkey : string;
  Host : string;
  Description : string
}.

(** The zero value of [User], what the named result [user] holds until it
    is assigned. *)
Definition zeroUser : User :=
  {| UserID := 0; Name := EmptyString; Email := EmptyString; Pubkey := EmptyString; Host := EmptyString; Description := EmptyString |}.

(** Errors of the mongo driver. *)
Inductive MongoError : Type :=
| ErrNoDocuments
| WriteException (writeErrorCodes : list Z)
| DriverError (msg : string).

(** Errors [UserCreate] returns. *)
Inductive Error : Type :=
| ErrInvalidName
| ErrInvalidPublicKey
| ErrUserExists
| ErrMongo (e : MongoError).

#[global] Instance MongoError_eq_dec : EqDecision MongoError.
Proof. solve_decision. Defined.

(** [UserFilter] is a [bson.D]: a list of field conditions. *)
Inductive Cond : Type :=
| CondID (id : Z)
| CondName (name : string)
| CondEmail (email : string).

Definition UserFilter : Type := list Cond.

Definition WithID (f : UserFilter) (id : Z) : UserFilter :=
  if id =? 0 then f else f ++ [CondID id].

Definition WithName (f : UserFilter) (name : string) : UserFilter :=
  if String.eqb name EmptyString then f else f ++ [CondName name].

Definition WithEmail (f : UserFilter) (email : string) : UserFilter :=
  if String.eqb email EmptyString then f else f ++ [CondEmail email].

Definition holds (u : User) (c : Cond) : bool :=
  match c with
  | CondID id => UserID u =? id
  | CondName name => String.eqb (Name u) name
  | CondEmail email => String.eqb (Email u) email
  end.

(** The user collection.  [findFault] and [insertFault], when set, are the
    error the next [FindOne] or [InsertOne] meets before it reaches the
    documents (a lost connection, a timeout); [counter] is the id counter of
    the collection. *)
Record UserDB : Type := mkUserDB {
  users : list User;
  counter : Z;
  findFault : option string;
  insertFault : option string
}.

(** [UserFilter.Get]: [FindOne], then the error of the result, then the
    decoding. *)
Definition Get (f : UserFilter) (db : UserDB) : User * option MongoError :=
  match findFault db with
  | Some msg => (zeroUser, Some (DriverError msg))
  | None =>
      match List.find (fun u => forallb (holds u) f) (users db) with
      | Some u => (u, None)
      | None => (zeroUser, Some ErrNoDocuments)
      end
  end.

(** Modelled from the spec: the unique indexes of the user collection
    ("Conflict: duplicate user name/email"); a violation is the driver's
    write exception with code 11000. *)
Definition duplicates (db : UserDB) (u : User) : bool :=
  existsb (fun v => String.eqb (Name v) (Name u) || String.eqb (Email v) (Email u))
          (users db).

Definition InsertOne (db : UserDB) (u : User) : UserDB * option MongoError :=
  match insertFault db with
  | Some msg => (db, Some (DriverError msg))
  | None =>
      if duplicates db u
      then (db, Some (WriteException [11000]))
      else ({| users := users db ++ [u]; counter := counter db;
               findFault := findFault db; insertFault := insertFault db |}, None)
  end.

(** Modelled from the spec: [models.MustID], "monotonically assigned ids". *)
Definition MustID (db : UserDB) : Z * UserDB :=
  (counter db + 1,
   {| users := users db; counter := counter db + 1;
      findFault := findFault db; insertFault := insertFault db |}).

(** [crypto.KeyFromHex] of the zos library succeeds on the hex text of a
    32-byte ed25519 public key. *)
Definition isHexDigit (c : ascii) : bool :=
  let n := nat_of_ascii c in
  ((48 <=? n) && (n <=? 57) || (97 <=? n) && (n <=? 102) || (65 <=? n) && (n <=? 70))%nat.

Definition KeyFromHex (h : string) : bool :=
  (String.length h =? 64)%nat && forallb isHexDigit (list_ascii_of_string h).

(** Store calls made by [UserCreate], in program order. *)
Inductive Call : Type :=
| CallFindOne (f : UserFilter)
| CallMustID
| CallInsertOne (u : User).

(** [UserCreate]: the named results [(user, err)], the store afterwards and
    the calls made; [Panic] is the index-out-of-range of [WriteErrors[0]]. *)
Definition UserCreate (db : UserDB) (name email pubkey : string)
  : outcome (User * option Error * UserDB * list Call) :=
  let user := zeroUser in
  if (String.length name =? 0)%nat then Done (user, Some ErrInvalidName, db, [])
  else if negb (KeyFromHex pubkey) then Done (user, Some ErrInvalidPublicKey, db, [])
  else
    let filter := WithName [] name in
    let '(_, err) := Get filter db in
    let trace := [CallFindOne filter] in
    match err with
    | None => Done (user, Some ErrUserExists, db, trace)
    | Some e =>
        if negb (bool_decide (e = ErrNoDocuments))
        then Done (user, Some (ErrMongo e), db, trace)
        else
          let '(id, db1) := MustID db in
          let user := {| UserID := id; Name := name; Email := email;
                         Pubkey := pubkey; Host := EmptyString; Description := EmptyString |} in
          let '(db2, err) := InsertOne db1 user in
          let trace := trace ++ [CallMustID; CallInsertOne user] in
          match err with
          | Some (WriteException codes) =>
              match codes with
              | [] => Panic
              | errCode :: _ =>
                  if errCode =? 11000
                  then Done (user, Some ErrUserExists, db2, trace)
                  else Done (user, Some (ErrMongo (WriteException codes)), db2, trace)
              end
          | Some e' => Done (user, Some (ErrMongo e'), db2, trace)
          | None => Done (user, None, db2, trace)
          end
    end.

End phonebook.

(* ===================================================================== *)
(** ** pkg/directory: hashProof and NodeAPI.StoreProof                    *)
(* ===================================================================== *)

Module directory.

(** What an [interface{}] of a proof map can hold; arrays and objects are
    kept as their JSON text. *)
Inductive Value : Type :=
| VNull
| VBool (b : bool)
| VNumber (n : Z)
| VString (s : string)
| VJSON (text : string).

(** [type kv struct { k string; v interface{} }], both fields unexported. *)
Record kv : Type := mkKV {
  k : string;
  v : Value
}.

Definition zeroKV : kv := {| k := EmptyString; v := VNull |}.

(** [kvs := make([]kv, len(p))] followed by one [append] for each entry of
    [p]: the [len(p)] zero values stay in front.  The iteration order of a Go
    map is not fixed; [map_to_list] is one order. *)
Definition collect (p : gmap string Value) : list kv :=
  replicate (size p) zeroKV
  ++ map (fun e => {| k := fst e; v := snd e |}) (map_to_list p).

(** [sort.Slice(kvs, func(i, j int) bool { return kvs[i].k < kvs[j].k })],
    as an insertion sort on the keys; Go compares strings byte by byte. *)
Fixpoint insertKV (x : kv) (l : list kv) : list kv :=
  match l with
  | [] => [x]
  | y :: l' => if String.ltb (k y) (k x) then y :: insertKV x l' else x :: l
  end.

Definition sortSlice (l : list kv) : list kv := fold_right insertKV [] l.

(** [json.Marshal] of a [kv]: a struct is encoded through its exported
    fields, and [kv] has none. *)
Definition marshalKV (e : kv) : string := "{}".

(** [json.Marshal(kvs)] for the non-nil slice [kvs]. *)
Fixpoint joinComma (l : list string) : string :=
  match l with
  | [] => EmptyString
  | [x] => x
  | x :: rest => String.append x (String.append "," (joinComma rest))
  end.

Definition marshalKVs (kvs : list kv) : string :=
  String.append "[" (String.append (joinComma (map marshalKV kvs)) "]").

(** [fmt.Sprintf("%x", bh)] for a byte slice: two lower-case hex digits for
    each byte. *)
Definition hexDigit (n : N) : ascii :=
  if (n <? 10)%N then ascii_of_N (48 + n) else ascii_of_N (87 + n).

Definition hexOfByte (b : byte) : string :=
  let n := Byte.to_N b in
  String (hexDigit (n / 16)) (String (hexDigit (n mod 16)) EmptyString).

Fixpoint hexOfBytes (bs : list byte) : string :=
  match bs with
  | [] => EmptyString
  | b :: rest => String.append (hexOfByte b) (hexOfBytes rest)
  end.

Section WithMD5.

(** crypto/md5, taken as given: [digest written] is the MD5 checksum of the
    bytes written to a hash so far. *)
Variable digest : list byte -> list byte.

(** A [hash.Hash] is the bytes written to it; [md5.New()] has none. *)
Definition md5New : list byte := [].

(** [h.Sum(b)] "appends the current hash to b and returns the resulting
    slice"; it does not write [b] to [h]. *)
Definition Sum (h : list byte) (b : list byte) : list byte := b ++ digest h.

(** [hashProof]; [json.Marshal] cannot fail on [kvs], so the error returned
    is always nil and only the string is kept. *)
Definition hashProof (p : gmap string Value) : string :=
  let kvs := sortSlice (collect p) in
  let b := list_byte_of_string (marshalKVs kvs) in
  let h := md5New in
  let bh := Sum h b in
  hexOfBytes bh.

(** The inputs of [StoreProof]: the DMI and disk reports of a node. *)
Record DMI : Type := mkDMI {
  Sections : Value;
  Tooling : Value
}.

Record Disks : Type := mkDisks {
  Aggregator : Value;
  Environment : Value;
  Devices : Value;
  Tool : Value
}.

Record Proof : Type := mkProof {
  ProofCreated : Z;
  Hypervisor : list string;
  Hardware : gmap string Value;
  HardwareHash : string;
  ProofDisks : gmap string Value;
  DiskHash : string
}.

(** [NodeAPI.StoreProof], up to the proof it hands to [NodePushProof]. *)
Definition StoreProof (now : Z) (dmi : DMI) (disks : Disks)
           (hypervisor : list string) : Proof :=
  let hardware : gmap string Value :=
    <["tooling"%string := Tooling dmi]> (<["sections"%string := Sections dmi]> ∅) in
  let disksMap : gmap string Value :=
    <["tool"%string := Tool disks]>
      (<["devices"%string := Devices disks]>
         (<["environment"%string := Environment disks]>
            (<["aggregator"%string := Aggregator disks]> ∅))) in
  {| ProofCreated := now;
     Hypervisor := hypervisor;
     Hardware := hardware;
     HardwareHash := hashProof hardware;
     ProofDisks := disksMap;
     DiskHash := hashProof disksMap |}.

End WithMD5.

End directory.

Import directory.

(* ===================================================================== *)
(** ** The statements of the specification, in its own words              *)
(* ===================================================================== *)

Module Spec.

(** "Quorum is satisfied when at least quorum_min distinct signatures in the
    relevant list bear a tid belonging to the declared signers set;
    signatures with unknown tid do not count." *)
Definition distinctSigners (request : SigningRequest)
           (signatures : list SigningSignature) : list Z :=
  remove_dups
    (List.filter (fun t => bool_decide (t ∈ Signers request)) (map Tid signatures)).

Definition quorumSatisfied (request : SigningRequest)
           (signatures : list SigningSignature) : Prop :=
  QuorumMin request <= Z.of_nat (length (distinctSigners request signatures)).

(** "For every r with next_action = Sign, a single Pipeline pass sets
    next_action = Pay if and only if the quorum rule holds." *)
Definition signToPayClaim (r : Reservation) (now : Time) : Prop :=
  NextAction r = NextActionSign ->
  (NextAction (fst (Next r now)) = NextActionPay
   <-> quorumSatisfied (SigningRequestProvision (DataReservation r))
                       (SignaturesProvision r)).

(** "Remove the currency code FreeTFT from the allowed list", by "a single
    left-to-right pass" over the list being shortened: after a removal at
    index i the pass goes on at index i+1 of the shortened list, so the
    element that moved into place i is not looked at ("a second consecutive
    FreeTFT duplicate is left in place"). *)
Fixpoint singlePassRemove (l : list string) : list string :=
  match l with
  | [] => []
  | c :: rest =>
      if String.eqb c freeTFT
      then match rest with
           | [] => []
           | d :: rest' => d :: singlePassRemove rest'
           end
      else c :: singlePassRemove rest
  end.

(** "When free_count < total_count the list passed to escrow equals the
    declared currencies with FreeTFT removed by a single left-to-right pass;
    when all referenced nodes are free-to-use the list is forwarded as-is." *)
Definition currencyAdmissionClaim (nodes gateways : Directory)
           (usedNodes usedGateways declared : list string) : Prop :=
  allowedCurrencies nodes gateways usedNodes usedGateways declared
  = Done (if freeNodesOf nodes gateways usedNodes usedGateways
             <? paidNodesOf usedNodes usedGateways
          then singlePassRemove declared
          else declared).

(** "GetWorkload returns the workload definition plus the list of results
    for that workload_id": all the results of the parent reservation whose
    workload_id is [gwid]. *)
Definition resultsOf (r : Reservation) (gwid : string) : list Result :=
  List.filter (fun rs => String.eqb (ResWorkloadId rs) gwid) (Results r).

Definition workloadGetClaim (db : DB) (gwid : string) (now : Time) : Prop :=
  forall rid r wr,
    parseID (beforeDash gwid) = Some rid ->
    getByID db rid = Some r ->
    workloadGet db gwid now = (Some wr, ResponseNil) ->
    TheResult wr = resultsOf r gwid.

(** "UserCreate returns ErrUserExists when a Get succeeds but falls through
    [to the insertion] when err != nil && err != NoDocuments". *)
Definition userCreateFallsThrough (db : phonebook.UserDB)
           (name email pubkey : string) : Prop :=
  forall e,
    String.length name <> 0%nat ->
    phonebook.KeyFromHex pubkey = true ->
    snd (phonebook.Get (phonebook.WithName [] name) db) = Some e ->
    e <> phonebook.ErrNoDocuments ->
    exists user err db' trace u,
      phonebook.UserCreate db name email pubkey = Done (user, err, db', trace)
      /\ In (phonebook.CallInsertOne u) trace.

End Spec.

(* ===================================================================== *)
(** ** Auxiliary definitions                                              *)
(* ===================================================================== *)

(** [Next] without the loop: what one pass returns, case by case. *)
Definition NextCases (r : Reservation) (now : Time) : Reservation * bool :=
  if bool_decide (NextAction r = NextActionDelete)
     || bool_decide (NextAction r = NextActionDeleted)
  then (r, false)
  else if Expired r now || checkDeleteSignatures r
  then (setNextAction r NextActionDelete, true)
  else if (ExpirationProvisioning (DataReservation r) <? now)
          && negb (IsSuccessfullyDeployed r)
  then (setNextAction r NextActionDelete, true)
  else match NextAction r with
       | NextActionCreate =>
           if checkProvisionSignatures r
           then (setNextAction r NextActionPay, true)
           else (setNextAction r NextActionSign, true)
       | NextActionSign =>
           if checkProvisionSignatures r
           then (setNextAction r NextActionPay, true)
           else (r, false)
       | _ => (r, false)
       end.

(** The entries of a signature list whose [Tid] is a declared signer: what
    the counting loop counts. *)
Definition signerEntries (request : SigningRequest)
           (signatures : list SigningSignature) : list SigningSignature :=
  List.filter (fun s => in_ (Tid s) (Signers request)) signatures.

(** A slice header never shows more than its array holds. *)
Definition wf (s : slice) : Prop := (len s <= length (arr s))%nat.

(** Codes other than FreeTFT: the filter that keeps them. *)
Definition otherCodes (l : list string) : list string :=
  List.filter (fun c => negb (String.eqb c freeTFT)) l.

(** The hash is a function of the number of keys alone. *)
Definition hashOfSize (digest : list byte -> list byte) (n : nat) : string :=
  hexOfBytes
    (list_byte_of_string
       (String.append "[" (String.append (joinComma (replicate (2 * n) "{}"%string)) "]"))
     ++ digest []).

(* ===================================================================== *)
(** ** Concrete stores and reservations                                   *)
(* ===================================================================== *)

(** A reservation in Sign, signed by its one signer, that expires at 100. *)
Definition expiredSigned : Reservation :=
  {| ID := 1; CustomerTid := 42; CustomerSignature := "c0"; Epoch := 0;
     NextAction := NextActionSign;
     DataReservation :=
       {| ExpirationProvisioning := 50; ExpirationReservation := 100;
          Currencies := ["TFT"%string];
          SigningRequestProvision := {| Signers := [42]; QuorumMin := 1 |};
          SigningRequestDelete := {| Signers := [42]; QuorumMin := 1 |};
          WorkloadDefs := [] |};
     SignaturesProvision := [ {| Tid := 42; Signature := "aa"; SigEpoch := 10 |} ];
     SignaturesDelete := [];
     SignaturesFarmer := [];
     Results := [] |}.

(** A reservation in Sign that asks for two signers and holds the same
    signature twice. *)
Definition twiceSigned : Reservation :=
  {| ID := 2; CustomerTid := 42; CustomerSignature := "c0"; Epoch := 0;
     NextAction := NextActionSign;
     DataReservation :=
       {| ExpirationProvisioning := 50; ExpirationReservation := 100;
          Currencies := ["TFT"%string];
          SigningRequestProvision := {| Signers := [42; 43]; QuorumMin := 2 |};
          SigningRequestDelete := {| Signers := [42]; QuorumMin := 1 |};
          WorkloadDefs := [] |};
     SignaturesProvision := [ {| Tid := 42; Signature := "aa"; SigEpoch := 10 |};
                              {| Tid := 42; Signature := "aa"; SigEpoch := 10 |} ];
     SignaturesDelete := [];
     SignaturesFarmer := [];
     Results := [] |}.

(** A reservation in Sign whose two signing requests have quorum_min = 0,
    with a delete signature of its declared delete signer. *)
Definition openQuorums : Reservation :=
  {| ID := 3; CustomerTid := 42; CustomerSignature := "c0"; Epoch := 0;
     NextAction := NextActionSign;
     DataReservation :=
       {| ExpirationProvisioning := 50; ExpirationReservation := 100;
          Currencies := ["TFT"%string];
          SigningRequestProvision := {| Signers := [42]; QuorumMin := 0 |};
          SigningRequestDelete := {| Signers := [42]; QuorumMin := 0 |};
          WorkloadDefs := [] |};
     SignaturesProvision := [];
     SignaturesDelete := [ {| Tid := 42; Signature := "dd"; SigEpoch := 12 |} ];
     SignaturesFarmer := [];
     Results := [] |}.

(** Two hundred queue rows for node N1, and one reservation in Deploy with a
    workload on N1. *)
Definition queueRow (n : nat) : Workload :=
  {| RW := {| WorkloadId := gwidOf 7 (Z.of_nat n); User := "42"; Type_ := WorkloadTypeVolume;
              Content := EmptyString; Created := 0; Duration := 100; WlSignature := "c0";
              ToDelete := false |};
     NodeID := "N1" |}.

Definition deploying : Reservation :=
  {| ID := 9; CustomerTid := 42; CustomerSignature := "c0"; Epoch := 0;
     NextAction := NextActionDeploy;
     DataReservation :=
       {| ExpirationProvisioning := 50; ExpirationReservation := 100;
          Currencies := ["TFT"%string];
          SigningRequestProvision := {| Signers := [42]; QuorumMin := 1 |};
          SigningRequestDelete := {| Signers := [42]; QuorumMin := 1 |};
          WorkloadDefs := [ {| WorkloadIdx := 1; DefNodeId := "N1";
                               DefType := WorkloadTypeVolume; Payload := EmptyString |} ] |};
     SignaturesProvision := [ {| Tid := 42; Signature := "aa"; SigEpoch := 5 |} ];
     SignaturesDelete := [];
     SignaturesFarmer := [];
     Results := [] |}.

Definition fullQueue : DB :=
  {| reservations := [deploying]; queue := map queueRow (seq 0 200) |}.

(** A store whose reservation 9 holds two results for its workload 9-1. *)
Definition resultOK : Result :=
  {| ResWorkloadId := "9-1"; ResNodeId := "N1"; ResEpoch := 6;
     State := ResultStateOK; DataJson := "{}"; ResSignature := "b1" |}.

Definition resultDeleted : Result :=
  {| ResWorkloadId := "9-1"; ResNodeId := "N1"; ResEpoch := 8;
     State := ResultStateDeleted; DataJson := "{}"; ResSignature := "b1" |}.

Definition twoResults : DB :=
  {| reservations :=
       [ {| ID := 9; CustomerTid := 42; CustomerSignature := "c0"; Epoch := 0;
            NextAction := NextActionDeploy;
            DataReservation := DataReservation deploying;
            SignaturesProvision := SignaturesProvision deploying;
            SignaturesDelete := [];
            SignaturesFarmer := [];
            Results := [resultOK; resultDeleted] |} ];
     queue := [] |}.

(** A phonebook with one user; [unreachable] is the same phonebook while its
    store times out. *)
Definition someKey : string :=
  "d75a980182b10ab7d54bfed3c964073a0ee172f3daa62325af021a68f707511a".

Definition bob : phonebook.User :=
  phonebook.mkUser 1 "bob" "bob@example.com" someKey EmptyString EmptyString.

Definition unreachable : phonebook.UserDB :=
  phonebook.mkUserDB [bob] 1 (Some "timeout"%string) None.

Definition reachable : phonebook.UserDB :=
  phonebook.mkUserDB [bob] 1 None None.

(** The MD5 checksum of the empty input (RFC 1321, test suite). *)
Definition md5Empty : list byte :=
  [xd4; x1d; x8c; xd9; x8f; x00; xb2; x04; xe9; x80; x09; x98; xec; xf8; x42; x7e].


(* ===================================================================== *)
(** ** Reservations as the store hands them over                          *)
(* ===================================================================== *)

(** The reservation with another list of provision signatures, and with
    another list of delete signatures: what the pipeline receives after the
    store has appended a signature. *)
Definition withSignaturesProvision (r : Reservation)
           (signatures : list SigningSignature) : Reservation :=
  {| ID := ID r;
     CustomerTid := CustomerTid r;
     CustomerSignature := CustomerSignature r;
     Epoch := Epoch r;
     NextAction := NextAction r;
     DataReservation := DataReservation r;
     SignaturesProvision := signatures;
     SignaturesDelete := SignaturesDelete r;
     SignaturesFarmer := SignaturesFarmer r;
     Results := Results r |}.

Definition withSignaturesDelete (r : Reservation)
           (signatures : list SigningSignature) : Reservation :=
  {| ID := ID r;
     CustomerTid := CustomerTid r;
     CustomerSignature := CustomerSignature r;
     Epoch := Epoch r;
     NextAction := NextAction r;
     DataReservation := DataReservation r;
     SignaturesProvision := SignaturesProvision r;
     SignaturesDelete := signatures;
     SignaturesFarmer := SignaturesFarmer r;
     Results := Results r |}.

(** The test of [Next] that sends a live reservation to Delete: expiry, the
    delete quorum, or the provisioning deadline of a reservation that is not
    fully deployed. *)
Definition mustDelete (r : Reservation) (now : Time) : bool :=
  Expired r now || checkDeleteSignatures r
  || (ExpirationProvisioning (DataReservation r) <? now)
     && negb (IsSuccessfullyDeployed r).

(** A reservation in Create whose delete request asks for a negative quorum. *)
Definition negativeDeleteQuorum : Reservation :=
  {| ID := 4; CustomerTid := 42; CustomerSignature := "c0"; Epoch := 0;
     NextAction := NextActionCreate;
     DataReservation :=
       {| ExpirationProvisioning := 50; ExpirationReservation := 100;
          Currencies := ["TFT"%string];
          SigningRequestProvision := {| Signers := [42]; QuorumMin := 1 |};
          SigningRequestDelete := {| Signers := [42]; QuorumMin := -1 |};
          WorkloadDefs := [] |};
     SignaturesProvision := [];
     SignaturesDelete := [];
     SignaturesFarmer := [];
     Results := [] |}.

(* ===================================================================== *)
(** ** pkg/phonebook/types: User.Encode and UserUpdate                    *)
(* ===================================================================== *)

Module phonebookUpdate.

Import phonebook.

(** [User.Encode]: the fields written one after the other into a buffer, the
    id first as [fmt.Sprint(int64(u.ID))]. *)
Definition Encode (u : User) : string :=
  String.append (string_of_Z (UserID u))
    (String.append (Name u)
       (String.append (Email u)
          (String.append (Host u)
             (String.append (Description u) (Pubkey u))))).

(** Errors [UserUpdate] returns: [ErrUserNotFound], the error of
    [crypto.KeyFromHex] on the stored key, [ErrBadUserUpdate] wrapped with a
    message, or the error of the store. *)
Inductive UpdateError : Type :=
| ErrUserNotFound
| ErrStoredKey
| ErrBadUserUpdate (msg : string)
| ErrStore (e : MongoError).

Definition setID (u : User) (id : Z) : User :=
  {| UserID := id; Name := Name u; Email := Email u; Pubkey := Pubkey u;
     Host := Host u; Description := Description u |}.

Definition setPubkey (u : User) (pubkey : string) : User :=
  {| UserID := UserID u; Name := Name u; Email := Email u; Pubkey := pubkey;
     Host := Host u; Description := Description u |}.

Definition setEmail (u : User) (email : string) : User :=
  {| UserID := UserID u; Name := Name u; Email := email; Pubkey := Pubkey u;
     Host := Host u; Description := Description u |}.

Definition setDescription (u : User) (description : string) : User :=
  {| UserID := UserID u; Name := Name u; Email := Email u; Pubkey := Pubkey u;
     Host := Host u; Description := description |}.

Definition setHost (u : User) (host : string) : User :=
  {| UserID := UserID u; Name := Name u; Email := Email u; Pubkey := Pubkey u;
     Host := host; Description := Description u |}.

(** [UpdateOne(ctx, filter, {"$set": current})]: the first document the
    filter selects takes the fields of [current]; no document selected is no
    error.  [fault] is the error the call meets before it reaches the
    documents, if any. *)
Fixpoint updateFirst (p : User -> bool) (new : User) (l : list User) : list User :=
  match l with
  | [] => []
  | u :: rest => if p u then new :: rest else u :: updateFirst p new rest
  end.

Fixpoint withoutFirst (p : User -> bool) (l : list User) : list User :=
  match l with
  | [] => []
  | u :: rest => if p u then rest else u :: withoutFirst p rest
  end.

(** Modelled from the spec: the unique indexes on name and email also guard
    updates ("Conflict: duplicate user name/email"). *)
Definition UpdateOne (fault : option string) (db : UserDB) (f : UserFilter)
           (current : User) : UserDB * option MongoError :=
  match fault with
  | Some msg => (db, Some (DriverError msg))
  | None =>
      let selects := fun u => forallb (holds u) f in
      match List.find selects (users db) with
      | None => (db, None)
      | Some _ =>
          if existsb (fun v => String.eqb (Name v) (Name current)
                               || String.eqb (Email v) (Email current))
                     (withoutFirst selects (users db))
          then (db, Some (WriteException [11000]))
          else ({| users := updateFirst selects current (users db);
                   counter := counter db;
                   findFault := findFault db;
                   insertFault := insertFault db |}, None)
      end
  end.

Section WithVerify.

(** [crypto.Verify(key, message, signature)] of the zos library, taken as
    given; the key is named by its hex text. *)
Variable Verify : string -> string -> string -> bool.

(** [UserUpdate]: the store afterwards and the error returned ([None] for
    nil). *)
Definition UserUpdate (updateFault : option string) (db : UserDB) (id : Z)
           (signature : string) (update : User) : UserDB * option UpdateError :=
  let update := setID update id in
  let filter := WithID [] id in
  let '(current, err) := Get filter db in
  if bool_decide (err = Some ErrNoDocuments) then (db, Some ErrUserNotFound)
  else if negb (KeyFromHex (Pubkey current)) then (db, Some ErrStoredKey)
  else if negb (Verify (Pubkey current) (Encode update) signature)
  then (db, Some (ErrBadUserUpdate "payload verification failed"))
  else
    let newKey :=
      if negb (String.length (Pubkey update) =? 0)%nat
      then if KeyFromHex (Pubkey update)
           then Some (setPubkey current (Pubkey update))
           else None
      else Some current in
    match newKey with
    | None => (db, Some (ErrBadUserUpdate "invalid public key"))
    | Some current =>
        if negb (String.length (Name update) =? 0)%nat
           && negb (String.eqb (Name current) (Name update))
        then (db, Some (ErrBadUserUpdate "can not update name"))
        else
          let current :=
            if negb (String.length (Email update) =? 0)%nat
            then setEmail current (Email update) else current in
          let current :=
            if negb (String.length (Description update) =? 0)%nat
            then setDescription current (Description update) else current in
          let current :=
            if negb (String.length (Host update) =? 0)%nat
            then setHost current (Host update) else current in
          match UpdateOne updateFault db filter current with
          | (db', Some e) => (db', Some (ErrStore e))
          | (db', None) => (db', None)
          end
    end.

End WithVerify.

End phonebookUpdate.

(* ===================================================================== *)
(** ** pkg/workloads/reservation.go: signProvision and signDelete         *)
(* ===================================================================== *)

Module signing.

(** The two collections the signing handlers read and write. *)
Record Store : Type := mkStore {
  resv : DB;
  phone : phonebook.UserDB
}.

(** The status of the [mw.Response] a signing handler returns. *)
Inductive Status : Type :=
| StatusBadRequest
| StatusNotFound
| StatusUnauthorized
| StatusError
| StatusCreated.

(** [hex.DecodeString] succeeds on an even number of hex digits. *)
Definition DecodeString (s : string) : bool :=
  Nat.even (String.length s) && forallb phonebook.isHexDigit (list_ascii_of_string s).

Definition withEpoch (s : SigningSignature) (now : Time) : SigningSignature :=
  {| Tid := Tid s; Signature := Signature s; SigEpoch := now |}.

(** Modelled from the spec: [types.ReservationPushSignature], "appends iff no
    existing entry with same tid". *)
Definition pushSignature (signatures : list SigningSignature)
           (s : SigningSignature) : list SigningSignature :=
  if existsb (fun x => Tid x =? Tid s) signatures then signatures
  else signatures ++ [s].

Definition PushSignatureProvision (db : DB) (id : Z) (s : SigningSignature) : DB :=
  {| reservations :=
       map (fun r => if ID r =? id
                     then withSignaturesProvision r (pushSignature (SignaturesProvision r) s)
                     else r)
           (reservations db);
     queue := queue db |}.

Definition PushSignatureDelete (db : DB) (id : Z) (s : SigningSignature) : DB :=
  {| reservations :=
       map (fun r => if ID r =? id
                     then withSignaturesDelete r (pushSignature (SignaturesDelete r) s)
                     else r)
           (reservations db);
     queue := queue db |}.

(** Modelled from the spec: [types.WorkloadPush], one queue row for each unit,
    "duplicates are suppressed by the (workload_id, node_id) uniqueness check
    on insert". *)
Definition pushRow (rows : list Workload) (w : Workload) : list Workload :=
  if existsb (fun x => String.eqb (WorkloadId (RW x)) (WorkloadId (RW w))
                       && String.eqb (NodeID x) (NodeID w)) rows
  then rows else rows ++ [w].

Definition WorkloadPush (db : DB) (ws : list Workload) : DB :=
  {| reservations := reservations db; queue := fold_left pushRow ws (queue db) |}.

Section WithSignatureVerify.

(** [Reservation.SignatureVerify(pk, sig)], declared next to the Reservation
    type and built on the ed25519 check of the crypto package: taken as
    given. *)
Variable SignatureVerify : Reservation -> string -> string -> bool.

(** [API.signProvision].  [resID] is the res_id of the route, [body] the
    signature decoded from the request ([None] when it does not decode).  The
    result is the status, the store afterwards and the calls on escrow. *)
Definition signProvision (st : Store) (resID : string)
           (body : option SigningSignature) (now : Time)
  : Status * Store * list Event :=
  match body with
  | None => (StatusBadRequest, st, [])
  | Some signature =>
      if negb (DecodeString (Signature signature)) then (StatusBadRequest, st, [])
      else
        match parseID resID with
        | None => (StatusBadRequest, st, [])
        | Some id =>
            match getByID (resv st) id with
            | None => (StatusNotFound, st, [])
            | Some reservation0 =>
                let reservation := pipeline reservation0 now in
                if negb (bool_decide (NextAction reservation = NextActionSign))
                then (StatusUnauthorized, st, [])
                else if negb (in_ (Tid signature)
                                  (Signers (SigningRequestProvision
                                              (DataReservation reservation))))
                then (StatusUnauthorized, st, [])
                else
                  match phonebook.Get (phonebook.WithID [] (Tid signature)) (phone st) with
                  | (_, Some _) => (StatusNotFound, st, [])
                  | (user, None) =>
                      if negb (SignatureVerify reservation (phonebook.Pubkey user)
                                               (Signature signature))
                      then (StatusUnauthorized, st, [])
                      else
                        let signature := withEpoch signature now in
                        let db1 := PushSignatureProvision (resv st) id signature in
                        match getByID db1 id with
                        | None => (StatusError, {| resv := db1; phone := phone st |}, [])
                        | Some reservation1 =>
                            let reservation := pipeline reservation1 now in
                            let db2 :=
                              if bool_decide (NextAction reservation = NextActionDeploy)
                              then WorkloadPush db1 (Workloads reservation EmptyString)
                              else db1 in
                            (StatusCreated, {| resv := db2; phone := phone st |}, [])
                        end
                  end
            end
        end
  end.

(** [API.signDelete]. *)
Definition signDelete (st : Store) (resID : string)
           (body : option SigningSignature) (now : Time)
  : Status * Store * list Event :=
  match body with
  | None => (StatusBadRequest, st, [])
  | Some signature =>
      if negb (DecodeString (Signature signature)) then (StatusBadRequest, st, [])
      else
        match parseID resID with
        | None => (StatusBadRequest, st, [])
        | Some id =>
            match getByID (resv st) id with
            | None => (StatusNotFound, st, [])
            | Some reservation0 =>
                let reservation := pipeline reservation0 now in
                if negb (in_ (Tid signature)
                             (Signers (SigningRequestDelete (DataReservation reservation))))
                then (StatusUnauthorized, st, [])
                else
                  match phonebook.Get (phonebook.WithID [] (Tid signature)) (phone st) with
                  | (_, Some _) => (StatusNotFound, st, [])
                  | (user, None) =>
                      if negb (SignatureVerify reservation (phonebook.Pubkey user)
                                               (Signature signature))
                      then (StatusUnauthorized, st, [])
                      else
                        let signature := withEpoch signature now in
                        let db1 := PushSignatureDelete (resv st) id signature in
                        match getByID db1 id with
                        | None => (StatusError, {| resv := db1; phone := phone st |}, [])
                        | Some reservation1 =>
                            let reservation := pipeline reservation1 now in
                            if negb (bool_decide (NextAction reservation = NextActionDelete))
                            then (StatusCreated, {| resv := db1; phone := phone st |}, [])
                            else
                              let '(db2, events) :=
                                setReservationDeleted db1 (ID reservation) in
                              let db3 :=
                                WorkloadPush db2 (Workloads reservation EmptyString) in
                              (StatusCreated, {| resv := db3; phone := phone st |}, events)
                        end
                  end
            end
        end
  end.

End WithSignatureVerify.

End signing.

(** A reservation in Sign that waits for the signature of its one signer, 42,
    and can be deleted by the same signer. *)
Definition awaitingSignature : Reservation :=
  {| ID := 5; CustomerTid := 42; CustomerSignature := "c0"; Epoch := 0;
     NextAction := NextActionSign;
     DataReservation :=
       {| ExpirationProvisioning := 50; ExpirationReservation := 100;
          Currencies := ["TFT"%string];
          SigningRequestProvision := {| Signers := [42]; QuorumMin := 1 |};
          SigningRequestDelete := {| Signers := [42]; QuorumMin := 1 |};
          WorkloadDefs := [ {| WorkloadIdx := 1; DefNodeId := "N1";
                               DefType := WorkloadTypeVolume; Payload := EmptyString |} ] |};
     SignaturesProvision := [];
     SignaturesDelete := [];
     SignaturesFarmer := [];
     Results := [] |}.

(** A store with that reservation and the phonebook of bob under id 42. *)
Definition signingStore : signing.Store :=
  signing.mkStore
    {| reservations := [awaitingSignature]; queue := [] |}
    (phonebook.mkUserDB
       [phonebook.mkUser 42 "bob" "bob@example.com" someKey EmptyString EmptyString]
       42 None None).

(* ===================================================================== *)
(** * Properties of the pipeline                                           *)
(* ===================================================================== *)

Section PipelineFacts.

Implicit Types (r : Reservation) (now : Time).

Lemma setNextAction_same r : setNextAction r (NextAction r) = r.
Proof. by destruct r. Qed.

Lemma NextAction_set r a : NextAction (setNextAction r a) = a.
Proof. done. Qed.

Lemma stage_cases r :
  stage r = r \/
  (NextAction r = NextActionCreate /\ stage r = setNextAction r NextActionSign) \/
  (NextAction r = NextActionSign /\ checkProvisionSignatures r = true
   /\ stage r = setNextAction r NextActionPay).
Proof.
  unfold stage. destruct (NextAction r) eqn:E; auto.
  destruct (checkProvisionSignatures r); auto.
Qed.

(** The loop reaches its [break] within three iterations, and more fuel does
    not change what it returns. *)
Lemma stages_fuel r modified n :
  (3 <= n)%nat ->
  exists out, stages n r (NextAction r) modified = Some out
              /\ stages 3 r (NextAction r) modified = Some out.
Proof.
  intros Hn. destruct n as [|[|[|n]]]; try lia.
  destruct r as [i c cs e na d sp sd sf rs].
  destruct na; cbn;
    unfold checkProvisionSignatures; cbn;
    repeat (case_match; cbn; try discriminate; eauto).
Qed.

Lemma NextFuel_enough r now n :
  (3 <= n)%nat -> NextFuel n r now = Some (Next r now).
Proof.
  intros Hn. unfold Next, NextFuel.
  repeat (case_match; try done).
  all: destruct (stages_fuel r false n Hn) as (out & Hout & Hout3); congruence.
Qed.

Lemma Next_cases r now : Next r now = NextCases r now.
Proof.
  unfold Next, NextFuel, NextCases.
  destruct (bool_decide (NextAction r = NextActionDelete)
            || bool_decide (NextAction r = NextActionDeleted)); [done|].
  destruct (Expired r now || checkDeleteSignatures r); [done|].
  destruct ((ExpirationProvisioning (DataReservation r) <? now)
            && negb (IsSuccessfullyDeployed r)); [done|].
  destruct r as [i c cs e na d sp sd sf rs].
  destruct na; cbn; unfold checkProvisionSignatures; cbn;
    repeat (case_match; cbn in *; simplify_eq; try done).
Qed.

(** The checks read the payload, the signature lists and the results, never
    [NextAction]. *)
Lemma checks_setNextAction r a now :
  Expired (setNextAction r a) now = Expired r now
  /\ checkDeleteSignatures (setNextAction r a) = checkDeleteSignatures r
  /\ checkProvisionSignatures (setNextAction r a) = checkProvisionSignatures r.
Proof. done. Qed.

Lemma IsAny_setNextAction_irrelevant r a :
  map (fun w => WorkloadId (RW w)) (Workloads (setNextAction r a) EmptyString)
  = map (fun w => WorkloadId (RW w)) (Workloads r EmptyString).
Proof.
  unfold Workloads. cbn. rewrite !map_map. done.
Qed.

Lemma forallb_map {A B} (f : A -> B) (p : B -> bool) (l : list A) :
  forallb p (map f l) = forallb (fun x => p (f x)) l.
Proof. induction l as [|x l IH]; cbn; [done | by rewrite IH]. Qed.

Lemma IsSuccessfullyDeployed_setNextAction r a :
  IsSuccessfullyDeployed (setNextAction r a) = IsSuccessfullyDeployed r.
Proof.
  unfold IsSuccessfullyDeployed, Workloads. cbn. by rewrite !forallb_map.
Qed.

Lemma countSignatures_length signers signatures count :
  countSignatures signers signatures count
  = count + Z.of_nat (length (List.filter (fun s => in_ (Tid s) signers) signatures)).
Proof.
  revert count. induction signatures as [|s rest IH]; intros count; cbn.
  - lia.
  - destruct (in_ (Tid s) signers); cbn; rewrite IH; lia.
Qed.

Lemma checkProvisionSignatures_count r :
  checkProvisionSignatures r = true <->
  QuorumMin (SigningRequestProvision (DataReservation r))
  <= Z.of_nat (length (signerEntries (SigningRequestProvision (DataReservation r))
                                     (SignaturesProvision r))).
Proof.
  unfold checkProvisionSignatures, signerEntries.
  rewrite countSignatures_length.
  destruct (Z.eqb_spec (QuorumMin (SigningRequestProvision (DataReservation r))) 0) as [->|Hne].
  - split; [lia | done].
  - rewrite Z.leb_le. lia.
Qed.

Lemma in__elem_of i l : in_ i l = true <-> i ∈ l.
Proof.
  induction l as [|x l IH]; cbn.
  - split; [done | by intros ?%elem_of_nil].
  - destruct (Z.eqb_spec x i) as [->|Hne].
    + split; [intros _; left | done].
    + rewrite IH. split; [by right | ].
      intros [?|?]%elem_of_cons; [congruence | done].
Qed.

Lemma filter_map_length {A B} (f : A -> B) (p : B -> bool) (l : list A) :
  length (List.filter p (map f l)) = length (List.filter (fun x => p (f x)) l).
Proof.
  induction l as [|x l IH]; cbn; [done|].
  destruct (p (f x)); cbn; by rewrite IH.
Qed.

Lemma remove_dups_NoDup {A} `{EqDecision A} (l : list A) :
  NoDup l -> remove_dups l = l.
Proof.
  induction 1 as [|x l Hx Hl IH]; cbn; [done|].
  destruct (decide_rel elem_of x l) as [Hin|_]; [done|]. by rewrite IH.
Qed.

Lemma NoDup_List_filter {A} (p : A -> bool) (l : list A) :
  NoDup l -> NoDup (List.filter p l).
Proof.
  induction 1 as [|x l Hx Hl IH]; cbn; [constructor|].
  destruct (p x); [|done]. constructor; [|done].
  rewrite list_elem_of_In, filter_In, <- list_elem_of_In. tauto.
Qed.

(** When no signer appears twice, the entries counted by the loop are the
    distinct signers of the spec. *)
Lemma distinctSigners_NoDup request signatures :
  NoDup (map Tid signatures) ->
  length (Spec.distinctSigners request signatures)
  = length (signerEntries request signatures).
Proof.
  intros Hnd. unfold Spec.distinctSigners, signerEntries.
  rewrite remove_dups_NoDup by by apply NoDup_List_filter.
  rewrite filter_map_length. f_equal. apply filter_ext. intros s.
  destruct (in_ (Tid s) (Signers request)) eqn:E.
  - apply bool_decide_eq_true, in__elem_of, E.
  - apply bool_decide_eq_false. rewrite <- in__elem_of. congruence.
Qed.

End PipelineFacts.

(** *** The claims about [Pipeline.Next] *)

(** C2. A reservation whose next action is Delete or Deleted comes back from
    the pipeline as it went in, with changed = false, whatever the clock, the
    signature lists and the results are. *)
Theorem Next_terminal_unchanged (r : Reservation) (now : Time) :
  NextAction r = NextActionDelete \/ NextAction r = NextActionDeleted ->
  Next r now = (r, false).
Proof.
  intros H. rewrite Next_cases. unfold NextCases.
  destruct H as [-> | ->]; reflexivity.
Qed.

Lemma Next_terminal_unchanged_witness :
  Next (setNextAction deploying NextActionDeleted) 500
  = (setNextAction deploying NextActionDeleted, false).
Proof. apply Next_terminal_unchanged. right. reflexivity. Defined.

(** C5. A reservation that is neither in Delete nor in Deleted and whose
    expiration_reservation lies before [now] leaves one pipeline pass with
    next action Delete and changed = true. *)
Theorem Next_expired_delete (r : Reservation) (now : Time) :
  NextAction r <> NextActionDelete ->
  NextAction r <> NextActionDeleted ->
  ExpirationReservation (DataReservation r) < now ->
  Next r now = (setNextAction r NextActionDelete, true)
  /\ NextAction (fst (Next r now)) = NextActionDelete
  /\ snd (Next r now) = true.
Proof.
  intros Hd Hdd Hexp.
  assert (Next r now = (setNextAction r NextActionDelete, true)) as ->; [|done].
  rewrite Next_cases. unfold NextCases.
  rewrite !bool_decide_eq_false_2 by done. cbn [orb].
  assert (Expired r now = true) as ->; [|done].
  unfold Expired. apply Z.leb_le. lia.
Qed.

Lemma Next_expired_delete_witness :
  Next expiredSigned 101 = (setNextAction expiredSigned NextActionDelete, true)
  /\ NextAction (fst (Next expiredSigned 101)) = NextActionDelete
  /\ snd (Next expiredSigned 101) = true.
Proof.
  apply Next_expired_delete; [discriminate | discriminate | reflexivity].
Defined.

(** C6. With signing_request_delete.quorum_min = 0 the delete quorum is never
    satisfied, and a pass that ends in Delete got there without the delete
    signatures: the reservation was in Delete already, or it has expired, or
    its provisioning deadline passed before it was fully deployed.  With
    signing_request_provision.quorum_min = 0 the provision quorum holds
    whatever the signatures are, and a reservation in Sign that no deadline
    sends to Delete moves to Pay. *)
Theorem quorum_min_zero (r : Reservation) (now : Time) :
  (QuorumMin (SigningRequestDelete (DataReservation r)) = 0 ->
   checkDeleteSignatures r = false
   /\ (NextAction (fst (Next r now)) = NextActionDelete ->
       NextAction r = NextActionDelete
       \/ Expired r now = true
       \/ (ExpirationProvisioning (DataReservation r) < now
           /\ IsSuccessfullyDeployed r = false)))
  /\ (QuorumMin (SigningRequestProvision (DataReservation r)) = 0 ->
      checkProvisionSignatures r = true
      /\ (NextAction r = NextActionSign ->
          Expired r now || checkDeleteSignatures r = false ->
          (ExpirationProvisioning (DataReservation r) <? now)
            && negb (IsSuccessfullyDeployed r) = false ->
          Next r now = (setNextAction r NextActionPay, true))).
Proof.
  split.
  - intros Hq.
    assert (checkDeleteSignatures r = false) as Hc.
    { unfold checkDeleteSignatures. by rewrite Hq. }
    split; [done|].
    intros Hdel.
    destruct (decide (NextAction r = NextActionDelete)) as [|Hnd]; [by left|]. right.
    destruct (Expired r now) eqn:He; [by left|]. right.
    rewrite Next_cases in Hdel. unfold NextCases in Hdel.
    rewrite Hc, He in Hdel.
    destruct (ExpirationProvisioning (DataReservation r) <? now) eqn:Hp;
      destruct (IsSuccessfullyDeployed r) eqn:Hs;
      try (split; [by apply Z.ltb_lt | done]); exfalso;
      cbn in Hdel; destruct (NextAction r) eqn:Hna; try congruence;
      rewrite ?bool_decide_eq_false_2 in Hdel by congruence; cbn in Hdel;
      try destruct (checkProvisionSignatures r); cbn in Hdel;
      repeat case_bool_decide; cbn in Hdel; congruence.
  - intros Hq.
    assert (checkProvisionSignatures r = true) as Hc.
    { unfold checkProvisionSignatures. by rewrite Hq. }
    split; [done|].
    intros Hs He Hp. rewrite Next_cases. unfold NextCases.
    by rewrite Hs, He, Hp, Hc.
Qed.

Lemma quorum_min_zero_witness :
  checkDeleteSignatures openQuorums = false
  /\ checkProvisionSignatures openQuorums = true
  /\ Next openQuorums 20 = (setNextAction openQuorums NextActionPay, true).
Proof.
  destruct (quorum_min_zero openQuorums 20) as [Hdelete Hprovision].
  destruct (Hdelete eq_refl) as [Hnever _].
  destruct (Hprovision eq_refl) as [Halways Hpay].
  split; [exact Hnever | split; [exact Halways |]].
  apply Hpay; reflexivity.
Defined.

(** C7. The pipeline is idempotent at a fixed clock: a second pass over the
    reservation returned by a first pass returns it as it is, with
    changed = false. *)
Theorem Next_idempotent (r : Reservation) (now : Time) :
  Next (fst (Next r now)) now = (fst (Next r now), false).
Proof.
  rewrite (Next_cases r now). unfold NextCases.
  destruct (bool_decide (NextAction r = NextActionDelete)
            || bool_decide (NextAction r = NextActionDeleted)) eqn:Hd; cbn [fst].
  { rewrite Next_cases. unfold NextCases. by rewrite Hd. }
  destruct (Expired r now || checkDeleteSignatures r) eqn:He; cbn [fst].
  { by rewrite Next_cases. }
  destruct ((ExpirationProvisioning (DataReservation r) <? now)
            && negb (IsSuccessfullyDeployed r)) eqn:Hp; cbn [fst].
  { by rewrite Next_cases. }
  assert (forall a, a <> NextActionDelete -> a <> NextActionDeleted ->
                    a <> NextActionCreate ->
                    (a = NextActionSign -> checkProvisionSignatures r = false) ->
                    Next (setNextAction r a) now = (setNextAction r a, false)) as Hfix.
  { intros a H1 H2 H3 H4. rewrite Next_cases. unfold NextCases.
    rewrite IsSuccessfullyDeployed_setNextAction, NextAction_set.
    change (Expired (setNextAction r a) now) with (Expired r now).
    change (checkDeleteSignatures (setNextAction r a)) with (checkDeleteSignatures r).
    change (checkProvisionSignatures (setNextAction r a))
      with (checkProvisionSignatures r).
    change (DataReservation (setNextAction r a)) with (DataReservation r).
    rewrite He, Hp. rewrite !bool_decide_eq_false_2 by done. cbn [orb].
    destruct a; try done. by rewrite H4. }
  destruct (NextAction r) eqn:Hna; destruct (checkProvisionSignatures r) eqn:Hq;
    cbn [fst]; try (apply Hfix; congruence);
    try (rewrite Next_cases; unfold NextCases; rewrite Hna, He, Hp, ?Hq; done);
    by vm_compute in Hd.
Qed.

(** C1 does not hold as stated: an expired reservation in Sign whose quorum is
    met goes to Delete, not Pay; and a reservation whose list holds the same
    signature twice reaches Pay with quorum_min = 2 although only one signer
    signed. *)
Lemma sign_to_pay_counterexample :
  ~ Spec.signToPayClaim expiredSigned 100 /\ ~ Spec.signToPayClaim twiceSigned 20.
Proof.
  split; intros H; specialize (H eq_refl).
  - assert (Spec.quorumSatisfied (SigningRequestProvision (DataReservation expiredSigned))
                                 (SignaturesProvision expiredSigned)) as Hq.
    { unfold Spec.quorumSatisfied. vm_compute. discriminate. }
    apply H in Hq. vm_compute in Hq. discriminate.
  - assert (NextAction (fst (Next twiceSigned 20)) = NextActionPay) as Hp
        by (vm_compute; reflexivity).
    apply H in Hp. unfold Spec.quorumSatisfied in Hp. vm_compute in Hp.
    by apply Hp.
Qed.

(** C1, amended.  For a reservation in Sign that no deadline and no delete
    quorum sends to Delete, one pass sets Pay exactly when signatures_provision
    holds at least quorum_min entries whose tid is a declared signer (entries
    are counted as they stand in the list); when no tid occurs twice in the
    list, that is the quorum rule of the spec. *)
Theorem sign_to_pay_iff_quorum (r : Reservation) (now : Time) :
  NextAction r = NextActionSign ->
  Expired r now || checkDeleteSignatures r = false ->
  (ExpirationProvisioning (DataReservation r) <? now)
    && negb (IsSuccessfullyDeployed r) = false ->
  (NextAction (fst (Next r now)) = NextActionPay
   <-> QuorumMin (SigningRequestProvision (DataReservation r))
       <= Z.of_nat (length (signerEntries (SigningRequestProvision (DataReservation r))
                                          (SignaturesProvision r))))
  /\ (NoDup (map Tid (SignaturesProvision r)) ->
      (NextAction (fst (Next r now)) = NextActionPay
       <-> Spec.quorumSatisfied (SigningRequestProvision (DataReservation r))
                                (SignaturesProvision r))).
Proof.
  intros Hs He Hp.
  assert (NextAction (fst (Next r now)) = NextActionPay
          <-> checkProvisionSignatures r = true) as Hiff.
  { rewrite Next_cases. unfold NextCases. rewrite Hs, He, Hp.
    rewrite !bool_decide_eq_false_2 by done. cbn [orb].
    destruct (checkProvisionSignatures r); cbn [fst]; [done|].
    split; [congruence | discriminate]. }
  split.
  - by rewrite Hiff, checkProvisionSignatures_count.
  - intros Hnd. unfold Spec.quorumSatisfied.
    rewrite distinctSigners_NoDup by done.
    by rewrite Hiff, checkProvisionSignatures_count.
Qed.

Lemma sign_to_pay_iff_quorum_witness :
  (NextAction (fst (Next twiceSigned 20)) = NextActionPay
   <-> QuorumMin (SigningRequestProvision (DataReservation twiceSigned))
       <= Z.of_nat (length (signerEntries
                              (SigningRequestProvision (DataReservation twiceSigned))
                              (SignaturesProvision twiceSigned))))
  /\ (NoDup (map Tid (SignaturesProvision twiceSigned)) ->
      (NextAction (fst (Next twiceSigned 20)) = NextActionPay
       <-> Spec.quorumSatisfied (SigningRequestProvision (DataReservation twiceSigned))
                                (SignaturesProvision twiceSigned))).
Proof. apply sign_to_pay_iff_quorum; reflexivity. Defined.

(* ===================================================================== *)
(** * Properties of the currency admission                                *)
(* ===================================================================== *)

Section CurrencyFacts.

Implicit Types (s : slice) (l : list string) (i n : nat).

Lemma elems_length s : wf s -> length (elems s) = len s.
Proof. unfold wf, elems. intros H. rewrite length_take. lia. Qed.

Lemma removeAt_Done s i s' :
  wf s -> removeAt s i = Done s' ->
  (i < len s)%nat
  /\ elems s' = take i (elems s) ++ drop (S i) (elems s)
  /\ wf s'
  /\ length (arr s') = length (arr s).
Proof.
  unfold removeAt, sliceTo, sliceFrom, bind, cap. intros Hwf.
  destruct (Nat.leb_spec i (length (arr s))) as [Hi|]; [|done].
  destruct (Nat.leb_spec (i + 1) (len s)) as [Hl|]; [|done].
  intros [= <-]. pose proof (elems_length s Hwf) as Hlen.
  assert (length (drop (i + 1) (elems s)) = len s - (i + 1))%nat as Hb
    by (rewrite length_drop; lia).
  replace (S i) with (i + 1)%nat by lia.
  unfold wf, appendInPlace, elems at 1. cbn [arr len].
  repeat split.
  - lia.
  - rewrite take_app_add' by (rewrite length_take; lia).
    rewrite take_app_length. f_equal.
    unfold elems. rewrite take_take. f_equal. lia.
  - rewrite Hb, !length_app, Hb, length_take, length_drop. unfold wf in Hwf. lia.
  - rewrite Hb, !length_app, Hb, length_take, length_drop. unfold wf in Hwf. lia.
Qed.

(** The append of [removeAt] always fits the capacity of its first operand. *)
Lemma removeAt_in_place s i a b :
  wf s -> sliceTo s i = Done a -> sliceFrom s (i + 1) = Done b ->
  (len a + length b <= cap a)%nat.
Proof.
  unfold sliceTo, sliceFrom, cap. intros Hwf.
  destruct (Nat.leb_spec i (length (arr s))); [|done]. intros [= <-].
  destruct (Nat.leb_spec (i + 1) (len s)); [|done]. intros [= <-].
  cbn. rewrite length_drop, elems_length by done. unfold wf in Hwf. lia.
Qed.

(** Whenever the loop runs to its end, what it leaves is the single pass of
    the spec. *)
Lemma rangeCurrencies_Done n : forall i s s',
  wf s -> (i + n = length (arr s))%nat ->
  rangeCurrencies n i s = Done s' ->
  elems s' = take i (elems s) ++ Spec.singlePassRemove (drop i (elems s)).
Proof.
  induction n as [|n IH]; intros i s s' Hwf Hn; cbn [rangeCurrencies].
  - intros [= <-]. pose proof (elems_length s Hwf). unfold wf in Hwf.
    rewrite take_ge, drop_ge by lia. by rewrite app_nil_r.
  - pose proof (elems_length s Hwf) as Hlen.
    assert (forall x, elems s !! i = Some x -> nth i (arr s) EmptyString = x) as Hnth.
    { intros x Hx. apply nth_lookup_Some. unfold elems in Hx.
      apply lookup_take_Some in Hx. tauto. }
    destruct (String.eqb_spec (nth i (arr s) EmptyString) freeTFT) as [Hc|Hc].
    + destruct (removeAt s i) as [s1|] eqn:Hr; [|done]. cbn [bind]. intros Hrec.
      apply removeAt_Done in Hr as (Hi & He & Hwf1 & Hlen1); [|done].
      apply IH in Hrec; [|done|lia]. rewrite Hrec, He. clear Hrec He.
      destruct (lookup_lt_is_Some_2 (elems s) i ltac:(lia)) as [x Hx].
      pose proof (Hnth x Hx) as Hxc. rewrite Hc in Hxc. subst x.
      rewrite (drop_S _ _ _ Hx).
      assert (length (take i (elems s)) = i) as HA by (rewrite length_take; lia).
      set (A := take i (elems s)) in *. set (B := drop (S i) (elems s)).
      cbn [Spec.singlePassRemove]. rewrite String.eqb_refl.
      destruct B as [|d B'].
      * rewrite app_nil_r. rewrite take_ge, drop_ge by lia. by rewrite app_nil_r.
      * replace (S i) with (length A + 1)%nat by lia.
        rewrite take_app_add', drop_app_add' by done. cbn.
        by rewrite <- app_assoc.
    + intros Hrec. apply IH in Hrec; [|done|lia]. rewrite Hrec. clear Hrec.
      destruct (decide (i < len s)%nat) as [Hi|Hi].
      * destruct (lookup_lt_is_Some_2 (elems s) i ltac:(lia)) as [x Hx].
        pose proof (Hnth x Hx) as Hxc. subst x.
        rewrite (take_S_r _ _ _ Hx), (drop_S _ _ _ Hx).
        cbn [Spec.singlePassRemove].
        destruct (String.eqb_spec (nth i (arr s) EmptyString) freeTFT); [done|].
        by rewrite <- app_assoc.
      * rewrite !take_ge, !drop_ge by lia. done.
Qed.

(** Once no FreeTFT is left from index [i] on in the array, the remaining
    iterations change nothing. *)
Lemma rangeCurrencies_quiet n : forall i s,
  freeTFT ∉ drop i (arr s) -> rangeCurrencies n i s = Done s.
Proof.
  induction n as [|n IH]; intros i s Hno; cbn [rangeCurrencies]; [done|].
  destruct (String.eqb_spec (nth i (arr s) EmptyString) freeTFT) as [Hc|Hc].
  - exfalso. rewrite nth_lookup in Hc.
    destruct (arr s !! i) as [x|] eqn:Hx; cbn in Hc; [|done]. subst x.
    apply Hno. rewrite (drop_S _ _ _ Hx). by left.
  - apply IH. intros Hin. apply Hno.
    replace (S i) with (i + 1)%nat in Hin by lia.
    rewrite <- drop_drop in Hin. by apply (subseteq_drop 1) in Hin.
Qed.

(** With FreeTFT declared at most once the loop never panics. *)
Lemma rangeCurrencies_total n : forall i s,
  len s = length (arr s) -> (i + n = length (arr s))%nat ->
  (count_occ string_dec (drop i (arr s)) freeTFT <= 1)%nat ->
  exists s', rangeCurrencies n i s = Done s'.
Proof.
  induction n as [|n IH]; intros i s Hfull Hn Hcount; cbn [rangeCurrencies]; [eauto|].
  destruct (lookup_lt_is_Some_2 (arr s) i ltac:(lia)) as [x Hx].
  rewrite (nth_lookup_Some _ _ _ _ Hx).
  rewrite (drop_S _ _ _ Hx) in Hcount.
  destruct (String.eqb_spec x freeTFT) as [->|Hc].
  - rewrite count_occ_cons_eq in Hcount by done.
    assert (freeTFT ∉ drop (S i) (arr s)) as Hno.
    { rewrite list_elem_of_In. apply count_occ_not_In with (eq_dec := string_dec). lia. }
    unfold removeAt, sliceTo, sliceFrom, cap, bind.
    destruct (Nat.leb_spec i (length (arr s))); [|lia].
    destruct (Nat.leb_spec (i + 1) (len s)); [|lia].
    eexists. apply rangeCurrencies_quiet.
    unfold appendInPlace, elems. cbn [arr len]. rewrite Hfull, firstn_all.
    replace (i + 1)%nat with (S i) by lia.
    pose proof (take_drop_middle _ _ _ Hx) as Hmid.
    assert (length (take i (arr s)) = i) as HA by (rewrite length_take; lia).
    remember (take i (arr s)) as A. remember (drop (S i) (arr s)) as B.
    rewrite <- Hmid.
    rewrite (drop_app_add' A _ i) by done.
    replace (S i) with (length A + 1)%nat by lia.
    rewrite drop_app_add' by done.
    destruct B as [|b B']; cbn.
    + apply not_elem_of_nil.
    + intros [Hin|Hin]%elem_of_app; apply Hno; [by right|].
      by apply (subseteq_drop (length B') (b :: B')).
  - rewrite count_occ_cons_neq in Hcount by done. by apply IH; [|lia|].
Qed.

Lemma otherCodes_cons c l :
  otherCodes (c :: l)
  = if String.eqb c freeTFT then otherCodes l else c :: otherCodes l.
Proof. unfold otherCodes. cbn. by destruct (String.eqb c freeTFT). Qed.

Lemma singlePassRemove_cons c l :
  Spec.singlePassRemove (c :: l)
  = if String.eqb c freeTFT
    then match l with
         | [] => []
         | d :: l' => d :: Spec.singlePassRemove l'
         end
    else c :: Spec.singlePassRemove l.
Proof. done. Qed.

Lemma singlePassRemove_quiet l :
  freeTFT ∉ l -> Spec.singlePassRemove l = l /\ otherCodes l = l.
Proof.
  induction l as [|c l IH]; [done|]. intros Hno.
  apply not_elem_of_cons in Hno as [Hc Hl]. destruct (IH Hl) as [IH1 IH2].
  rewrite singlePassRemove_cons, otherCodes_cons.
  destruct (String.eqb_spec c freeTFT); [congruence|].
  by rewrite IH1, IH2.
Qed.

Lemma singlePassRemove_others_len n : forall l,
  (length l <= n)%nat -> otherCodes (Spec.singlePassRemove l) = otherCodes l.
Proof.
  induction n as [|n IH]; intros [|c l] Hlen; cbn in Hlen; try lia; try done.
  rewrite singlePassRemove_cons, (otherCodes_cons c l).
  destruct (String.eqb_spec c freeTFT) as [->|Hc].
  - destruct l as [|d l]; [done|]. cbn in Hlen.
    rewrite !otherCodes_cons. rewrite IH by lia. done.
  - rewrite otherCodes_cons. destruct (String.eqb_spec c freeTFT); [done|].
    by rewrite IH by lia.
Qed.

Lemma singlePassRemove_others l :
  otherCodes (Spec.singlePassRemove l) = otherCodes l.
Proof. by apply (singlePassRemove_others_len (length l)). Qed.

Lemma singlePassRemove_once l :
  (count_occ string_dec l freeTFT <= 1)%nat ->
  Spec.singlePassRemove l = otherCodes l.
Proof.
  induction l as [|c l IH]; [done|]. intros Hcount.
  rewrite singlePassRemove_cons, otherCodes_cons.
  destruct (String.eqb_spec c freeTFT) as [->|Hc].
  - rewrite count_occ_cons_eq in Hcount by done.
    assert (freeTFT ∉ l) as Hno.
    { rewrite list_elem_of_In. apply count_occ_not_In with (eq_dec := string_dec). lia. }
    destruct (singlePassRemove_quiet l Hno) as [H1 H2].
    rewrite H2. destruct l as [|d l']; [done|].
    apply not_elem_of_cons in Hno as [_ Hno'].
    by destruct (singlePassRemove_quiet l' Hno') as [-> _].
  - rewrite count_occ_cons_neq in Hcount by done. by rewrite IH.
Qed.

End CurrencyFacts.

(** The admission on the lists of the spec: scenario 5, and the second of two
    consecutive FreeTFT left in place when a third code follows. *)
Example allowed_FreeTFT_TFT :
  allowedCurrencies [("N1", true); ("N2", false)]%string [] ["N1"; "N2"]%string []
                     ["FreeTFT"; "TFT"]%string
  = Done ["TFT"%string].
Proof. reflexivity. Qed.

Example allowed_second_duplicate :
  allowedCurrencies [("N1", true); ("N2", false)]%string [] ["N1"; "N2"]%string []
                     ["FreeTFT"; "FreeTFT"; "TFT"]%string
  = Done ["FreeTFT"; "TFT"]%string.
Proof. reflexivity. Qed.

Example allowed_all_free :
  allowedCurrencies [("N1", true); ("N2", true)]%string [] ["N1"; "N2"]%string []
                     ["FreeTFT"; "FreeTFT"]%string
  = Done ["FreeTFT"; "FreeTFT"]%string.
Proof. reflexivity. Qed.

Example allowed_stale_FreeTFT :
  allowedCurrencies [("N1", true); ("N2", false)]%string [] ["N1"; "N2"]%string []
                     ["FreeTFT"; "TFT"; "FreeTFT"]%string
  = Panic.
Proof. reflexivity. Qed.




(* ===================================================================== *)
(** * Properties of node polling and workload lookup                      *)
(* ===================================================================== *)

Section PollingFacts.

Implicit Types (db : DB) (r : Reservation) (now : Time).

(** The queue query is limited to the page size, so the guard
    [len(workloads) > maxPageSize] that follows it is never true. *)
Lemma queued_length db nodeID :
  Z.of_nat (length (queued db nodeID maxPageSize)) <= maxPageSize.
Proof.
  unfold queued, maxPageSize. cbn. rewrite length_take. lia.
Qed.

Lemma workloads_never_returns_early db nodeID from now :
  snd (fst (fst (workloads db nodeID from now))) <> ResponseNil.
Proof.
  unfold workloads. pose proof (queued_length db nodeID) as Hq.
  destruct (Z.ltb_spec maxPageSize (Z.of_nat (length (queued db nodeID maxPageSize))));
    [lia|].
  destruct (parseID from); [|done].
  by destruct (scan _ _ _ _ _ _) as [[? ?] ?].
Qed.

(** One pass changes nothing but the next action. *)
Lemma pipeline_setNextAction r now :
  pipeline r now = setNextAction r (NextAction (pipeline r now)).
Proof.
  unfold pipeline. rewrite Next_cases. unfold NextCases.
  repeat case_match; cbn [fst]; try done; by rewrite setNextAction_same.
Qed.

Lemma pipeline_Results r now : Results (pipeline r now) = Results r.
Proof. by rewrite pipeline_setNextAction. Qed.

Lemma collectResult_first results gwid :
  collectResult results gwid
  = take 1 (List.filter (fun rs => String.eqb (ResWorkloadId rs) gwid) results).
Proof.
  induction results as [|rs rest IH]; cbn; [done|].
  by destruct (String.eqb (ResWorkloadId rs) gwid).
Qed.

Lemma findWorkload_id ws gwid w :
  findWorkload ws gwid = Some w -> WorkloadId (RW w) = gwid.
Proof.
  unfold findWorkload. intros H. apply find_some in H as [_ H].
  by apply String.eqb_eq.
Qed.

End PollingFacts.

(** C3, on the code.  With the queue of N1 alone at the page size the poll
    still scans the reservations and returns 201 entries: the early return
    asks for more than [maxPageSize] rows from a query limited to
    [maxPageSize], and the check inside the scan comes after the append. *)
Theorem workloads_full_queue_overflow :
  length (queued fullQueue "N1" maxPageSize) = 200%nat
  /\ exists ws db' trace,
      workloads fullQueue "N1" "0" 10
      = (Some ws, ResponseOk [("x-last-id"%string, "9"%string)], db', trace)
      /\ length ws = 201%nat
      /\ trace = [QueueFind "N1" 200; ReservationLastID; ReservationFind 0 "N1"].
Proof.
  split; [by vm_compute|].
  eexists _, _, _. split; [by vm_compute|]. split; by vm_compute.
Qed.

(** C8 does not hold as stated: with two results stored for the same
    workload the response carries the first one only. *)
Lemma workloadGet_counterexample : ~ Spec.workloadGetClaim twoResults "9-1" 10.
Proof.
  intros H.
  specialize (H 9 _ _ ltac:(by vm_compute) ltac:(by vm_compute) ltac:(by vm_compute)).
  vm_compute in H. discriminate.
Qed.

(** C8, amended.  For a workload that exists, [GetWorkload] answers with the
    workload definition and with the first of the results stored for it in
    the parent reservation, if there is one; when at most one result is
    stored for the workload, these are all its results. *)
Theorem workloadGet_first_result (db : DB) (gwid : string) (now : Time)
        (rid : Z) (r : Reservation) (w : Workload) :
  parseID (beforeDash gwid) = Some rid ->
  getByID db rid = Some r ->
  findWorkload (Workloads (pipeline r now) EmptyString) gwid = Some w ->
  workloadGet db gwid now
  = (Some {| TheWorkload := w; TheResult := take 1 (Spec.resultsOf r gwid) |},
     ResponseNil)
  /\ WorkloadId (RW w) = gwid
  /\ ((length (Spec.resultsOf r gwid) <= 1)%nat ->
      take 1 (Spec.resultsOf r gwid) = Spec.resultsOf r gwid).
Proof.
  intros Hid Hget Hw. pose proof (findWorkload_id _ _ _ Hw) as Hgwid.
  split; [|split; [done|]].
  - unfold workloadGet. rewrite Hid, Hget, Hw.
    by rewrite collectResult_first, pipeline_Results, Hgwid.
  - intros Hlen. by apply take_ge.
Qed.

Lemma workloadGet_first_result_witness :
  workloadGet twoResults "9-1" 10
  = (Some {| TheWorkload := toWorkload deploying (mkWorkloadDef 1 "N1" WorkloadTypeVolume EmptyString);
             TheResult := [resultOK] |}, ResponseNil).
Proof.
  apply (workloadGet_first_result twoResults "9-1" 10 9
           (mkReservation 9 42 "c0" 0 NextActionDeploy (DataReservation deploying)
                          (SignaturesProvision deploying) [] [] [resultOK; resultDeleted])
           (toWorkload deploying (mkWorkloadDef 1 "N1" WorkloadTypeVolume EmptyString)));
    reflexivity.
Defined.

(* ===================================================================== *)
(** * Properties of UserCreate                                            *)
(* ===================================================================== *)

Section UserCreateFacts.

Import phonebook.

Implicit Types (db : UserDB) (name email pubkey : string).

Lemma WithName_nonempty name :
  String.length name <> 0%nat -> WithName [] name = [CondName name].
Proof. unfold WithName. by destruct name. Qed.

Lemma Get_by_name db name :
  findFault db = None ->
  snd (Get [CondName name] db) = None
  <-> exists v, v ∈ users db /\ Name v = name.
Proof.
  intros Hf. unfold Get. rewrite Hf.
  destruct (List.find _ (users db)) as [u|] eqn:Hfind; cbn.
  - split; [intros _|done]. apply find_some in Hfind as [Hin Hh].
    exists u. rewrite list_elem_of_In. split; [done|].
    cbn in Hh. rewrite andb_true_r in Hh. by apply String.eqb_eq.
  - split; [done|]. intros (v & Hin & Hv). exfalso.
    apply list_elem_of_In in Hin.
    pose proof (find_none _ _ Hfind v Hin) as Hn. cbn in Hn.
    rewrite andb_true_r in Hn. apply String.eqb_neq in Hn. done.
Qed.

Lemma duplicates_iff db u :
  duplicates db u = true
  <-> exists v, v ∈ users db /\ (Name v = Name u \/ Email v = Email u).
Proof.
  unfold duplicates. rewrite existsb_exists. split.
  - intros (v & Hin & Hv). exists v. rewrite list_elem_of_In. split; [done|].
    apply orb_true_iff in Hv as [Hv|Hv]; apply String.eqb_eq in Hv; tauto.
  - intros (v & Hin & Hv). exists v. rewrite <- list_elem_of_In. split; [done|].
    apply orb_true_iff. rewrite !String.eqb_eq. tauto.
Qed.




End UserCreateFacts.

(* ===================================================================== *)
(** * Properties of hashProof                                             *)
(* ===================================================================== *)

Section HashProofFacts.

Variable digest : list byte -> list byte.

Lemma insertKV_length x l : length (insertKV x l) = S (length l).
Proof.
  induction l as [|y l IH]; cbn; [done|].
  destruct (String.ltb (k y) (k x)); cbn; by rewrite ?IH.
Qed.

Lemma sortSlice_length l : length (sortSlice l) = length l.
Proof.
  unfold sortSlice. induction l as [|x l IH]; cbn; [done|].
  by rewrite insertKV_length, IH.
Qed.

Lemma collect_length (p : gmap string Value) :
  length (collect p) = (2 * size p)%nat.
Proof.
  unfold collect.
  rewrite length_app, length_replicate, length_map, length_map_to_list. lia.
Qed.

Lemma map_marshalKV (l : list kv) :
  map marshalKV l = replicate (length l) "{}"%string.
Proof. induction l as [|x l IH]; cbn; [done|]. by rewrite IH. Qed.

Lemma hashProof_size (p : gmap string Value) :
  hashProof digest p = hashOfSize digest (size p).
Proof.
  unfold hashProof, hashOfSize, Sum, md5New, marshalKVs. cbv zeta.
  by rewrite map_marshalKV, sortSlice_length, collect_length.
Qed.

End HashProofFacts.

(** The hash of any map of two keys, with the MD5 of the empty input: the hex
    text of "[{},{},{},{}]" followed by d41d8cd9...427e. *)
Example hashProof_two_keys :
  hashProof (fun _ => md5Empty)
            (<["tooling"%string := VString "dmidecode"]>
               (<["sections"%string := VJSON "[]"]> ∅))
  = "5b7b7d2c7b7d2c7b7d2c7b7d5dd41d8cd98f00b204e9800998ecf8427e"%string.
Proof. by vm_compute. Qed.

(** C10. [hashProof] does not read the content of its argument: two maps
    with the same number of keys have the same hash, for each of them is
    encoded as a list of empty objects and MD5 is taken of nothing.  So the
    HardwareHash and the DiskHash stored by [StoreProof] are the same for
    every node and every report. *)
Theorem hashProof_ignores_content (digest : list byte -> list byte) :
  (forall p q : gmap string Value,
      size p = size q -> hashProof digest p = hashProof digest q)
  /\ (forall now now' dmi dmi' disks disks' hypervisor hypervisor',
        HardwareHash (StoreProof digest now dmi disks hypervisor)
        = HardwareHash (StoreProof digest now' dmi' disks' hypervisor')
        /\ DiskHash (StoreProof digest now dmi disks hypervisor)
           = DiskHash (StoreProof digest now' dmi' disks' hypervisor')).
Proof.
  split.
  - intros p q Hsize. by rewrite !hashProof_size, Hsize.
  - intros. cbn [HardwareHash DiskHash StoreProof]. rewrite !hashProof_size.
    split; f_equal;
      repeat (rewrite map_size_insert_None;
              [| by repeat (rewrite lookup_insert_ne by done); rewrite ?lookup_empty]);
      done.
Qed.

Lemma hashProof_ignores_content_witness :
  hashProof (fun _ => []) ({[ "sections"%string := VString "A" ]} : gmap string Value)
  = hashProof (fun _ => []) ({[ "tooling"%string := VNumber 7 ]} : gmap string Value).
Proof.
  destruct (hashProof_ignores_content (fun _ => [])) as [Hsame _].
  apply Hsame. reflexivity.
Defined.

(* ===================================================================== *)
(** * Further properties of the pipeline                                  *)
(* ===================================================================== *)

Section PipelineMore.

Implicit Types (r : Reservation) (now : Time).

Lemma NextCases_mustDelete r now :
  NextAction r <> NextActionDelete -> NextAction r <> NextActionDeleted ->
  mustDelete r now = true ->
  NextCases r now = (setNextAction r NextActionDelete, true).
Proof.
  intros Hd Hdd Hm. unfold NextCases, mustDelete in *.
  rewrite !bool_decide_eq_false_2 by done. cbn [orb].
  destruct (Expired r now || checkDeleteSignatures r); [done|].
  cbn [orb] in Hm. by rewrite Hm.
Qed.

Lemma NextCases_live r now :
  NextAction r <> NextActionDelete -> NextAction r <> NextActionDeleted ->
  mustDelete r now = false ->
  NextCases r now
  = match NextAction r with
    | NextActionCreate =>
        if checkProvisionSignatures r
        then (setNextAction r NextActionPay, true)
        else (setNextAction r NextActionSign, true)
    | NextActionSign =>
        if checkProvisionSignatures r
        then (setNextAction r NextActionPay, true)
        else (r, false)
    | _ => (r, false)
    end.
Proof.
  intros Hd Hdd Hm. unfold NextCases, mustDelete in *.
  rewrite !bool_decide_eq_false_2 by done. cbn [orb].
  apply orb_false_iff in Hm as [-> ->]. done.
Qed.

Lemma NextCases_shape r now :
  exists a, NextCases r now
            = (setNextAction r a, negb (bool_decide (a = NextAction r))).
Proof.
  unfold NextCases. destruct r as [i c cs e na d sp sd sf rs].
  destruct na; cbn; repeat case_match;
    first [ by eexists NextActionCreate | by eexists NextActionSign
          | by eexists NextActionPay | by eexists NextActionDeploy
          | by eexists NextActionDelete | by eexists NextActionInvalid
          | by eexists NextActionDeleted ].
Qed.

Lemma countSignatures_app signers l s :
  countSignatures signers (l ++ [s]) 0
  = countSignatures signers l 0 + (if in_ (Tid s) signers then 1 else 0).
Proof.
  rewrite !countSignatures_length, List.filter_app, length_app. cbn.
  destruct (in_ (Tid s) signers); cbn; lia.
Qed.

Lemma countSignatures_nonneg signers l : 0 <= countSignatures signers l 0.
Proof. rewrite countSignatures_length. lia. Qed.

End PipelineMore.

(** X1. A pass changes nothing but NextAction, and the flag it returns is
    true exactly when NextAction has changed. *)
Theorem Next_changes_only_NextAction (r : Reservation) (now : Time) :
  fst (Next r now) = setNextAction r (NextAction (fst (Next r now)))
  /\ (snd (Next r now) = true <-> NextAction (fst (Next r now)) <> NextAction r)
  /\ (snd (Next r now) = false <-> fst (Next r now) = r).
Proof.
  destruct (NextCases_shape r now) as [a Ha]. rewrite Next_cases, Ha.
  cbn [fst snd]. rewrite NextAction_set. split; [done|].
  destruct (decide (a = NextAction r)) as [->|Hne].
  - rewrite bool_decide_eq_true_2, setNextAction_same by done. cbn. split; split; done.
  - rewrite bool_decide_eq_false_2 by done. cbn.
    split; split; try done. intros Heq. exfalso. apply Hne. by rewrite <- Heq.
Qed.

(** X2. A pass never leaves a reservation in Create, and the only values it
    ever writes are Sign, Pay and Delete: Deploy, Deleted and Invalid come out
    only if they went in. *)
Theorem Next_writes_Sign_Pay_Delete (r : Reservation) (now : Time) :
  NextAction (fst (Next r now)) <> NextActionCreate
  /\ (NextAction (fst (Next r now)) = NextAction r
      \/ NextAction (fst (Next r now)) = NextActionSign
      \/ NextAction (fst (Next r now)) = NextActionPay
      \/ NextAction (fst (Next r now)) = NextActionDelete).
Proof.
  rewrite Next_cases. unfold NextCases.
  destruct r as [i c cs e na d sp sd sf rs].
  destruct na; cbn; repeat case_match; cbn; (split; [discriminate | tauto]).
Qed.

(** X3. A live reservation whose delete request has a non-zero quorum_min and
    whose delete list holds that many entries of declared signers goes to
    Delete in one pass, whatever else holds. *)
Theorem Next_delete_quorum (r : Reservation) (now : Time) :
  NextAction r <> NextActionDelete ->
  NextAction r <> NextActionDeleted ->
  QuorumMin (SigningRequestDelete (DataReservation r)) <> 0 ->
  QuorumMin (SigningRequestDelete (DataReservation r))
  <= Z.of_nat (length (signerEntries (SigningRequestDelete (DataReservation r))
                                     (SignaturesDelete r))) ->
  Next r now = (setNextAction r NextActionDelete, true).
Proof.
  intros Hd Hdd Hq Hcount. rewrite Next_cases.
  apply NextCases_mustDelete; [done..|].
  unfold mustDelete.
  assert (checkDeleteSignatures r = true) as ->; [|by rewrite orb_true_r].
  unfold checkDeleteSignatures, signerEntries in *.
  rewrite (proj2 (Z.eqb_neq _ _) Hq), countSignatures_length.
  apply Z.leb_le. lia.
Qed.

Lemma Next_delete_quorum_witness :
  Next (withSignaturesDelete expiredSigned
          [ {| Tid := 42; Signature := "dd"; SigEpoch := 12 |} ]) 20
  = (setNextAction (withSignaturesDelete expiredSigned
                      [ {| Tid := 42; Signature := "dd"; SigEpoch := 12 |} ])
                   NextActionDelete, true).
Proof.
  apply Next_delete_quorum; [discriminate | discriminate | discriminate |].
  cbn. lia.
Defined.

(** X4. A reservation in Deploy stays as it is exactly as long as it has not
    expired, its delete quorum is not met, and its provisioning deadline has
    not passed or every workload has an OK result; otherwise the pass sends it
    to Delete. *)
Theorem Next_Deploy_stable (r : Reservation) (now : Time) :
  NextAction r = NextActionDeploy ->
  (mustDelete r now = false -> Next r now = (r, false))
  /\ (mustDelete r now = true -> Next r now = (setNextAction r NextActionDelete, true)).
Proof.
  intros Hna. rewrite Next_cases. split; intros Hm.
  - rewrite NextCases_live by (done || congruence). by rewrite Hna.
  - apply NextCases_mustDelete; (done || congruence).
Qed.

Lemma Next_Deploy_stable_witness :
  Next deploying 20 = (deploying, false)
  /\ Next deploying 60 = (setNextAction deploying NextActionDelete, true).
Proof.
  split.
  - apply (Next_Deploy_stable deploying 20); reflexivity.
  - apply (Next_Deploy_stable deploying 60); reflexivity.
Defined.

(** X5. A signature whose tid is not a declared signer does not count:
    appending it to the provision list or to the delete list leaves both
    quorum checks, and so the whole pass, as they were. *)
Theorem unknown_signer_ignored (r : Reservation) (s : SigningSignature) (now : Time) :
  in_ (Tid s) (Signers (SigningRequestProvision (DataReservation r))) = false ->
  in_ (Tid s) (Signers (SigningRequestDelete (DataReservation r))) = false ->
  checkProvisionSignatures (withSignaturesProvision r (SignaturesProvision r ++ [s]))
  = checkProvisionSignatures r
  /\ checkDeleteSignatures (withSignaturesDelete r (SignaturesDelete r ++ [s]))
     = checkDeleteSignatures r
  /\ NextAction (fst (Next (withSignaturesProvision r (SignaturesProvision r ++ [s])) now))
     = NextAction (fst (Next r now))
  /\ NextAction (fst (Next (withSignaturesDelete r (SignaturesDelete r ++ [s])) now))
     = NextAction (fst (Next r now)).
Proof.
  intros Hp Hd.
  assert (checkProvisionSignatures (withSignaturesProvision r (SignaturesProvision r ++ [s]))
          = checkProvisionSignatures r) as Hcp.
  { unfold checkProvisionSignatures. cbn. by rewrite countSignatures_app, Hp, Z.add_0_r. }
  assert (checkDeleteSignatures (withSignaturesDelete r (SignaturesDelete r ++ [s]))
          = checkDeleteSignatures r) as Hcd.
  { unfold checkDeleteSignatures. cbn. by rewrite countSignatures_app, Hd, Z.add_0_r. }
  split; [done|]. split; [done|].
  rewrite !Next_cases. unfold NextCases.
  change (checkDeleteSignatures (withSignaturesProvision r (SignaturesProvision r ++ [s])))
    with (checkDeleteSignatures r).
  change (checkProvisionSignatures (withSignaturesDelete r (SignaturesDelete r ++ [s])))
    with (checkProvisionSignatures r).
  rewrite Hcp, Hcd.
  split; cbn [NextAction withSignaturesProvision withSignaturesDelete
              DataReservation];
    change (Expired (withSignaturesProvision r (SignaturesProvision r ++ [s])) now)
      with (Expired r now);
    change (Expired (withSignaturesDelete r (SignaturesDelete r ++ [s])) now)
      with (Expired r now);
    change (IsSuccessfullyDeployed (withSignaturesProvision r (SignaturesProvision r ++ [s])))
      with (IsSuccessfullyDeployed r);
    change (IsSuccessfullyDeployed (withSignaturesDelete r (SignaturesDelete r ++ [s])))
      with (IsSuccessfullyDeployed r);
    repeat case_match; done.
Qed.

Lemma unknown_signer_ignored_witness :
  checkProvisionSignatures
    (withSignaturesProvision twiceSigned
       (SignaturesProvision twiceSigned ++ [ {| Tid := 7; Signature := "ee"; SigEpoch := 3 |} ]))
  = checkProvisionSignatures twiceSigned.
Proof.
  apply (unknown_signer_ignored twiceSigned
           {| Tid := 7; Signature := "ee"; SigEpoch := 3 |} 20); reflexivity.
Defined.

(** X6. A reservation in Create that nothing sends to Delete passes both
    stages in one pass when its provision quorum is met already: it comes out
    in Pay, and in Sign otherwise; either way it is reported changed. *)
Theorem Next_Create (r : Reservation) (now : Time) :
  NextAction r = NextActionCreate ->
  mustDelete r now = false ->
  Next r now
  = (setNextAction r (if checkProvisionSignatures r
                      then NextActionPay else NextActionSign), true).
Proof.
  intros Hna Hm. rewrite Next_cases, NextCases_live by (done || congruence).
  rewrite Hna. by destruct (checkProvisionSignatures r).
Qed.

Lemma Next_Create_witness :
  Next (setNextAction openQuorums NextActionCreate) 20
  = (setNextAction (setNextAction openQuorums NextActionCreate) NextActionPay, true).
Proof.
  apply (Next_Create (setNextAction openQuorums NextActionCreate) 20); reflexivity.
Defined.

(** X7. A negative quorum_min in the delete request is a quorum that is
    always met: any live reservation that carries one is sent to Delete by
    its first pass, with no delete signature at all. *)
Theorem negative_delete_quorum (r : Reservation) (now : Time) :
  QuorumMin (SigningRequestDelete (DataReservation r)) < 0 ->
  checkDeleteSignatures r = true
  /\ (NextAction r <> NextActionDelete -> NextAction r <> NextActionDeleted ->
      Next r now = (setNextAction r NextActionDelete, true)).
Proof.
  intros Hneg.
  assert (checkDeleteSignatures r = true) as Hc.
  { unfold checkDeleteSignatures.
    rewrite (proj2 (Z.eqb_neq _ _)) by lia. apply Z.leb_le.
    pose proof (countSignatures_nonneg
                  (Signers (SigningRequestDelete (DataReservation r)))
                  (SignaturesDelete r)). lia. }
  split; [done|]. intros Hd Hdd. rewrite Next_cases.
  apply NextCases_mustDelete; [done..|]. unfold mustDelete.
  by rewrite Hc, orb_true_r.
Qed.

Lemma negative_delete_quorum_witness :
  Next negativeDeleteQuorum 20 = (setNextAction negativeDeleteQuorum NextActionDelete, true).
Proof.
  destruct (negative_delete_quorum negativeDeleteQuorum 20) as [_ Hdelete].
  - reflexivity.
  - apply Hdelete; discriminate.
Defined.

(* ===================================================================== *)
(** * Further properties of the phonebook                                 *)
(* ===================================================================== *)

Section PhonebookMore.

Import phonebook phonebookUpdate.

Implicit Types (db : UserDB) (u : User) (f : UserFilter).

Lemma find_app_last {A} (p : A -> bool) (l : list A) (x : A) :
  List.find p l = None -> p x = true -> List.find p (l ++ [x]) = Some x.
Proof.
  induction l as [|y l IH]; cbn; intros Hl Hx; [by rewrite Hx|].
  destruct (p y); [done|]. by apply IH.
Qed.

Lemma string_append_assoc (a b c : string) :
  String.append (String.append a b) c = String.append a (String.append b c).
Proof.
  induction a as [|x a IH]; [reflexivity|].
  change (String x (String.append (String.append a b) c)
          = String x (String.append a (String.append b c))).
  by f_equal.
Qed.

Lemma updateFirst_map {B} (g : User -> B) (p : User -> bool) (new c : User)
      (l : list User) :
  List.find p l = Some c -> g new = g c ->
  map g (updateFirst p new l) = map g l.
Proof.
  induction l as [|y l IH]; cbn; [done|].
  destruct (p y) eqn:Hy.
  - intros [= ->] Hg. cbn. by rewrite Hg.
  - intros Hf Hg. cbn. by rewrite IH.
Qed.

Lemma updateFirst_same (p : User -> bool) (c : User) (l : list User) :
  List.find p l = Some c -> updateFirst p c l = l.
Proof.
  induction l as [|y l IH]; cbn; [done|].
  destruct (p y) eqn:Hy.
  - by intros [= ->].
  - intros Hf. by rewrite IH.
Qed.

Lemma UserCreate_success db name email pubkey u db' trace :
  UserCreate db name email pubkey = Done (u, None, db', trace) ->
  String.length name <> 0%nat
  /\ findFault db = None
  /\ List.find (fun v => forallb (holds v) [CondName name]) (users db) = None
  /\ u = {| UserID := counter db + 1; Name := name; Email := email;
            Pubkey := pubkey; Host := EmptyString; Description := EmptyString |}
  /\ users db' = users db ++ [u]
  /\ findFault db' = None
  /\ duplicates db u = false
  /\ trace = [CallFindOne [CondName name]; CallMustID; CallInsertOne u].
Proof.
  unfold UserCreate.
  destruct (Nat.eqb_spec (String.length name) 0) as [|Hn]; [done|].
  destruct (KeyFromHex pubkey); [|done]. cbn [negb].
  rewrite WithName_nonempty by done. unfold Get.
  destruct (findFault db) eqn:Hff; [done|].
  destruct (List.find _ (users db)) eqn:Hfind; [done|].
  rewrite bool_decide_eq_true_2 by done. cbn [negb MustID].
  unfold InsertOne. cbn [insertFault users counter findFault].
  destruct (insertFault db); [done|].
  match goal with |- context [duplicates ?d ?x] => destruct (duplicates d x) eqn:Hdup end;
    [done|].
  intros [= <- <- <-]. cbn. by rewrite Hff.
Qed.

End PhonebookMore.

(** X8. Zero-valued arguments add no condition to a user filter, so a lookup
    by id 0 (and no name, no email) is a lookup with no condition: it answers
    with the first user of the collection. *)
Theorem Get_zero_id_unfiltered (db : phonebook.UserDB) (u : phonebook.User)
        (rest : list phonebook.User) :
  phonebook.findFault db = None ->
  phonebook.users db = u :: rest ->
  phonebook.Get
    (phonebook.WithEmail (phonebook.WithName (phonebook.WithID [] 0) EmptyString)
                         EmptyString) db
  = (u, None).
Proof.
  intros Hff Hu. unfold phonebook.Get. by rewrite Hff, Hu.
Qed.

Lemma Get_zero_id_unfiltered_witness :
  phonebook.Get
    (phonebook.WithEmail (phonebook.WithName (phonebook.WithID [] 0) EmptyString)
                         EmptyString) reachable
  = (bob, None).
Proof. apply (Get_zero_id_unfiltered reachable bob []); reflexivity. Defined.

(** X9. As long as the store answers, [Get] returns a stored user that meets
    every condition of the filter, the first such user, and it returns
    NoDocuments exactly when no stored user meets them. *)
Theorem Get_sound_complete (db : phonebook.UserDB) (f : phonebook.UserFilter) :
  phonebook.findFault db = None ->
  (forall u, phonebook.Get f db = (u, None) ->
             u ∈ phonebook.users db /\ forallb (phonebook.holds u) f = true)
  /\ (snd (phonebook.Get f db) = Some phonebook.ErrNoDocuments
      <-> forall u, u ∈ phonebook.users db -> forallb (phonebook.holds u) f = false).
Proof.
  intros Hff. unfold phonebook.Get. rewrite Hff.
  destruct (List.find _ (phonebook.users db)) as [v|] eqn:Hfind.
  - apply find_some in Hfind as [Hin Hv]. split.
    + intros u [= <-]. by rewrite list_elem_of_In.
    + split; [done|]. intros Hnone. apply list_elem_of_In in Hin.
      rewrite (Hnone v Hin) in Hv. done.
  - split; [done|]. split; [|done]. intros _ u Hin.
    apply list_elem_of_In in Hin. by apply (find_none _ _ Hfind).
Qed.

Lemma Get_sound_complete_witness :
  snd (phonebook.Get [phonebook.CondName "alice"%string] reachable)
  = Some phonebook.ErrNoDocuments.
Proof.
  destruct (Get_sound_complete reachable [phonebook.CondName "alice"%string])
    as [_ [_ Hnone]].
  - reflexivity.
  - apply Hnone. intros u Hin. apply list_elem_of_In in Hin.
    destruct Hin as [<-|[]]. reflexivity.
Defined.

(** X10. After a successful [UserCreate] the new user is the last document
    of the collection, carries the next id of the counter and the name, email
    and key given, and a lookup by its name returns it. *)
Theorem UserCreate_then_Get (db db' : phonebook.UserDB) (name email pubkey : string)
        (u : phonebook.User) (trace : list phonebook.Call) :
  phonebook.UserCreate db name email pubkey = Done (u, None, db', trace) ->
  u = phonebook.mkUser (phonebook.counter db + 1) name email pubkey
                       EmptyString EmptyString
  /\ phonebook.users db' = phonebook.users db ++ [u]
  /\ phonebook.Get (phonebook.WithName [] name) db' = (u, None).
Proof.
  intros Hrun.
  apply UserCreate_success in Hrun
    as (Hn & Hff & Hfind & Hu & Husers & Hff' & _ & _).
  split; [done|]. split; [done|].
  rewrite WithName_nonempty by done. unfold phonebook.Get.
  rewrite Hff', Husers, (find_app_last _ _ u Hfind); [done|].
  subst u. cbn. by rewrite String.eqb_refl.
Qed.

Lemma UserCreate_then_Get_witness :
  phonebook.Get (phonebook.WithName [] "carol")
    (phonebook.mkUserDB
       [bob; phonebook.mkUser 2 "carol" "carol@example.com" someKey EmptyString EmptyString]
       2 None None)
  = (phonebook.mkUser 2 "carol" "carol@example.com" someKey EmptyString EmptyString, None).
Proof.
  apply (UserCreate_then_Get reachable _ "carol" "carol@example.com" someKey _
           [phonebook.CallFindOne [phonebook.CondName "carol"%string];
            phonebook.CallMustID;
            phonebook.CallInsertOne
              (phonebook.mkUser 2 "carol" "carol@example.com" someKey
                                EmptyString EmptyString)]).
  reflexivity.
Defined.

(** X11. [UserCreate] keeps the names of the collection distinct, and it
    never removes or rewrites a stored user: the collection afterwards is the
    one before, with the new user at its end when the call succeeded. *)
Theorem UserCreate_keeps_names_unique (db db' : phonebook.UserDB)
        (name email pubkey : string) (u : phonebook.User)
        (err : option phonebook.Error) (trace : list phonebook.Call) :
  NoDup (map phonebook.Name (phonebook.users db)) ->
  phonebook.UserCreate db name email pubkey = Done (u, err, db', trace) ->
  NoDup (map phonebook.Name (phonebook.users db'))
  /\ (phonebook.users db' = phonebook.users db
      \/ (err = None /\ phonebook.users db' = phonebook.users db ++ [u])).
Proof.
  intros Hnd Hrun. destruct err as [e|].
  - assert (phonebook.users db' = phonebook.users db) as Hsame.
    { revert Hrun. unfold phonebook.UserCreate.
      repeat (case_match; try done); intros [= <- <- <- <-]; subst;
        unfold phonebook.InsertOne, phonebook.MustID in *;
        repeat (case_match; simplify_eq); done. }
    rewrite Hsame. auto.
  - apply UserCreate_success in Hrun
      as (Hn & Hff & Hfind & Hu & Husers & Hff' & Hdup & _).
    split; [|right; done]. rewrite Husers, map_app. cbn.
    apply NoDup_app. split; [done|]. split; [|apply NoDup_singleton].
    intros x Hx Hin. apply list_elem_of_singleton in Hin. subst x.
    apply list_elem_of_fmap in Hx as (v & Hv & Hvin).
    assert (phonebook.duplicates db u = true) as Htrue; [|congruence].
    apply duplicates_iff. exists v. split; [done|]. by left.
Qed.

Lemma UserCreate_keeps_names_unique_witness :
  NoDup (map phonebook.Name (phonebook.users reachable)).
Proof.
  apply (UserCreate_keeps_names_unique reachable reachable "bob" "b@example.com" someKey
           phonebook.zeroUser (Some phonebook.ErrUserExists)
           [phonebook.CallFindOne [phonebook.CondName "bob"%string]]).
  - cbn. apply NoDup_singleton.
  - reflexivity.
Defined.

(** X12. [Encode] writes the fields with nothing between them, so the text
    signed does not fix where one field ends: a piece moved from the front of
    the email to the end of the name gives the same bytes, and a signature
    for one update is a signature for the other. *)
Theorem Encode_field_boundaries (id : Z) (name piece email pubkey host description : string) :
  phonebookUpdate.Encode
    (phonebook.mkUser id (String.append name piece) email pubkey host description)
  = phonebookUpdate.Encode
      (phonebook.mkUser id name (String.append piece email) pubkey host description).
Proof.
  unfold phonebookUpdate.Encode. cbn [phonebook.UserID phonebook.Name phonebook.Email
                                     phonebook.Host phonebook.Description phonebook.Pubkey].
  by rewrite !string_append_assoc.
Qed.

Section UserUpdateFacts.

Import phonebook phonebookUpdate.

Variable Verify : string -> string -> string -> bool.

Implicit Types (db : UserDB) (u update : User).

(** What [UserUpdate] needs to get as far as the store write. *)
Lemma UserUpdate_success fault db db' id signature update :
  UserUpdate Verify fault db id signature update = (db', None) ->
  exists current final,
    Get (WithID [] id) db = (current, None)
    /\ KeyFromHex (Pubkey current) = true
    /\ Verify (Pubkey current) (Encode (setID update id)) signature = true
    /\ Name final = Name current /\ UserID final = UserID current
    /\ UpdateOne fault db (WithID [] id) final = (db', None).
Proof.
  unfold UserUpdate.
  destruct (Get (WithID [] id) db) as [current err] eqn:Hget.
  destruct (bool_decide (err = Some ErrNoDocuments)) eqn:Hnd; [done|].
  destruct (KeyFromHex (Pubkey current)) eqn:Hkey; cbn [negb]; [|done].
  destruct (Verify _ _ _) eqn:Hv; cbn [negb]; [|done].
  assert (err = None) as ->.
  { unfold Get in Hget. destruct (findFault db).
    - injection Hget as <- <-. done.
    - destruct (List.find _ _); injection Hget as <- <-; [done|].
      by rewrite bool_decide_eq_true_2 in Hnd. }
  cbn [setID Pubkey Name Email Description Host].
  match goal with
  | |- context [match ?k with Some _ => _ | None => _ end] =>
      destruct k as [c1|] eqn:Hk; [|done]
  end.
  assert (Name c1 = Name current /\ UserID c1 = UserID current) as [Hn1 Hi1].
  { repeat case_match; simplify_eq; done. }
  destruct (_ && _); [done|].
  match goal with
  | |- context [UpdateOne fault db (WithID [] id) ?c] =>
      destruct (UpdateOne fault db (WithID [] id) c) as [d [e|]] eqn:Hup; [done|];
      intros [= <-]; exists current, c
  end.
  repeat split; try done; repeat case_match; cbn; done.
Qed.

(** A failed [UserUpdate] does not write. *)
Lemma UserUpdate_failure fault db db' id signature update e :
  UserUpdate Verify fault db id signature update = (db', Some e) -> db' = db.
Proof.
  unfold UserUpdate, UpdateOne.
  repeat (case_match; simplify_eq; try done); by intros [= <-].
Qed.

End UserUpdateFacts.

(** X13. A successful [UserUpdate] was signed for the key stored at that
    moment: the user looked up by the id has a valid stored key, and the
    signature verifies under it over the encoding of the update with that
    id. *)
Theorem UserUpdate_signed_by_stored_key
        (Verify : string -> string -> string -> bool) (fault : option string)
        (db db' : phonebook.UserDB) (id : Z) (signature : string)
        (update : phonebook.User) :
  phonebookUpdate.UserUpdate Verify fault db id signature update = (db', None) ->
  exists current,
    phonebook.Get (phonebook.WithID [] id) db = (current, None)
    /\ phonebook.KeyFromHex (phonebook.Pubkey current) = true
    /\ Verify (phonebook.Pubkey current)
              (phonebookUpdate.Encode (phonebookUpdate.setID update id)) signature
       = true.
Proof.
  intros Hrun. apply UserUpdate_success in Hrun as (current & final & H1 & H2 & H3 & _).
  eauto.
Qed.

Lemma UserUpdate_signed_by_stored_key_witness :
  exists current,
    phonebook.Get (phonebook.WithID [] 1) reachable = (current, None)
    /\ phonebook.KeyFromHex (phonebook.Pubkey current) = true
    /\ (fun key _ sig => String.eqb key sig) (phonebook.Pubkey current)
         (phonebookUpdate.Encode
            (phonebookUpdate.setID
               (phonebook.mkUser 0 EmptyString "bob@new.example" EmptyString
                                 EmptyString EmptyString) 1))
         someKey
       = true.
Proof.
  apply (UserUpdate_signed_by_stored_key (fun key _ sig => String.eqb key sig) None
           reachable
           (phonebook.mkUserDB
              [phonebook.mkUser 1 "bob" "bob@new.example" someKey EmptyString EmptyString]
              1 None None)
           1 someKey
           (phonebook.mkUser 0 EmptyString "bob@new.example" EmptyString
                             EmptyString EmptyString)).
  reflexivity.
Defined.


(** X15. When the lookup itself fails (the store cannot be reached),
    [UserUpdate] does not return that error: it goes on with the zero user
    and reports the error of parsing an empty stored key.  Nothing is
    written. *)
Theorem UserUpdate_lookup_error_masked
        (Verify : string -> string -> string -> bool) (fault : option string)
        (db : phonebook.UserDB) (id : Z) (signature : string)
        (update : phonebook.User) (msg : string) :
  phonebook.findFault db = Some msg ->
  phonebookUpdate.UserUpdate Verify fault db id signature update
  = (db, Some phonebookUpdate.ErrStoredKey).
Proof.
  intros Hff. unfold phonebookUpdate.UserUpdate, phonebook.Get. by rewrite Hff.
Qed.

Lemma UserUpdate_lookup_error_masked_witness :
  phonebookUpdate.UserUpdate (fun _ _ _ => true) None unreachable 1 someKey bob
  = (unreachable, Some phonebookUpdate.ErrStoredKey).
Proof.
  apply (UserUpdate_lookup_error_masked _ _ unreachable 1 someKey bob "timeout").
  reflexivity.
Defined.

(** X16. An id that no stored user has (and that is not 0) is answered with
    ErrUserNotFound, before any key is parsed or any signature checked. *)
Theorem UserUpdate_not_found
        (Verify : string -> string -> string -> bool) (fault : option string)
        (db : phonebook.UserDB) (id : Z) (signature : string)
        (update : phonebook.User) :
  phonebook.findFault db = None ->
  id <> 0 ->
  (forall u, u ∈ phonebook.users db -> phonebook.UserID u <> id) ->
  phonebookUpdate.UserUpdate Verify fault db id signature update
  = (db, Some phonebookUpdate.ErrUserNotFound).
Proof.
  intros Hff Hid Hnone. unfold phonebookUpdate.UserUpdate, phonebook.Get, phonebook.WithID.
  rewrite Hff, (proj2 (Z.eqb_neq _ _) Hid). cbn [app].
  destruct (List.find _ (phonebook.users db)) as [c|] eqn:Hfind.
  - exfalso. apply find_some in Hfind as [Hin Hc]. cbn in Hc.
    rewrite andb_true_r in Hc. apply Z.eqb_eq in Hc.
    apply list_elem_of_In in Hin. by apply (Hnone c Hin).
  - by rewrite bool_decide_eq_true_2.
Qed.

Lemma UserUpdate_not_found_witness :
  phonebookUpdate.UserUpdate (fun _ _ _ => true) None reachable 5 someKey bob
  = (reachable, Some phonebookUpdate.ErrUserNotFound).
Proof.
  apply UserUpdate_not_found; [reflexivity | discriminate |].
  intros u Hin. apply list_elem_of_In in Hin. destruct Hin as [<-|[]]. discriminate.
Defined.

(** X17. An update that sets no field (empty key, email, description and
    host) leaves every stored user as it is, whether it is accepted or
    not. *)
Theorem UserUpdate_empty_fields
        (Verify : string -> string -> string -> bool) (fault : option string)
        (db : phonebook.UserDB) (id : Z) (signature : string) (name : string) :
  phonebook.users
    (fst (phonebookUpdate.UserUpdate Verify fault db id signature
            (phonebook.mkUser 0 name EmptyString EmptyString EmptyString EmptyString)))
  = phonebook.users db.
Proof.
  destruct (phonebookUpdate.UserUpdate Verify fault db id signature _)
    as [db' [e|]] eqn:Hrun; cbn [fst].
  - apply UserUpdate_failure in Hrun. by subst db'.
  - revert Hrun. unfold phonebookUpdate.UserUpdate.
    destruct (phonebook.Get (phonebook.WithID [] id) db) as [current err] eqn:Hget.
    cbn [phonebookUpdate.setID phonebook.Pubkey phonebook.Name phonebook.Email
         phonebook.Description phonebook.Host String.length Nat.eqb negb].
    repeat (case_match; try done).
    all: unfold phonebookUpdate.UpdateOne, phonebook.Get in *;
      repeat (case_match; simplify_eq; try done);
      intros [= <-]; cbn; by apply updateFirst_same.
Qed.

(* ===================================================================== *)
(** * Further properties of node polling                                  *)
(* ===================================================================== *)

Section PollingMore.

Implicit Types (db : DB) (r : Reservation) (now : Time) (ws : list Workload).

(** The cursor loop only ever appends: to the workloads and to the calls. *)
Lemma scan_extends cur nodeID now : forall db ws trace,
  exists rest more,
    fst (fst (scan cur nodeID now db ws trace)) = ws ++ rest
    /\ snd (scan cur nodeID now db ws trace) = trace ++ more
    /\ (forall w, w ∈ rest ->
                  exists r, r ∈ cur /\ w ∈ Workloads (pipeline r now) nodeID
                            /\ IsAny (pipeline r now) [NextActionDeploy; NextActionDelete] = true).
Proof.
  induction cur as [|r0 cur IH]; intros db ws trace; cbn [scan].
  - exists [], []. rewrite !app_nil_r. split; [done|]. split; [done|].
    by intros w ?%elem_of_nil.
  - set (r := pipeline r0 now).
    destruct (bool_decide (NextAction r = NextActionDelete));
      cbn [setReservationDeleted];
      destruct (negb (IsAny r [NextActionDeploy; NextActionDelete])) eqn:Hany;
      try destruct (maxPageSize <=? _).
    all: try (match goal with
              | |- context [scan _ _ _ ?d ?w ?t] =>
                  destruct (IH d w t) as (rest & more & H1 & H2 & H3)
              end).
    all: try (apply negb_false_iff in Hany).
    all: cbn [fst snd] in *.
    all: first
      [ (* stopped at the page size *)
        eexists (Workloads r nodeID), _; split; [reflexivity|];
        split; [reflexivity || (symmetry; apply app_nil_r)|];
        intros w Hw; exists r0; split; [by left | by split]
      | (* went on after an append *)
        eexists (Workloads r nodeID ++ rest), _; rewrite H1, H2, <- ?app_assoc;
        split; [reflexivity|]; split; [reflexivity|];
        intros w [Hw|Hw]%elem_of_app;
        [ exists r0; split; [by left | by split]
        | destruct (H3 w Hw) as (r1 & ? & ? & ?); exists r1; split; [by right | by split] ]
      | (* skipped this reservation *)
        eexists rest, _; rewrite H1, H2, <- ?app_assoc;
        split; [reflexivity|]; split; [reflexivity|];
        intros w Hw; destruct (H3 w Hw) as (r1 & ? & ? & ?);
        exists r1; split; [by right | by split] ].
Qed.

Lemma Workloads_node r nodeID w :
  nodeID <> EmptyString -> w ∈ Workloads r nodeID -> NodeID w = nodeID.
Proof.
  intros Hne. unfold Workloads. intros Hin.
  apply list_elem_of_In, in_map_iff in Hin as (d & <- & Hd).
  apply filter_In in Hd as [_ Hd]. cbn.
  apply orb_true_iff in Hd as [Hd|Hd]; apply String.eqb_eq in Hd; congruence.
Qed.

Lemma queued_node db nodeID limit w :
  w ∈ queued db nodeID limit -> NodeID w = nodeID.
Proof.
  unfold queued. intros Hin.
  assert (w ∈ List.filter (fun w => String.eqb (NodeID w) nodeID) (queue db)) as Hf.
  { destruct (limit =? 0); [done|]. by apply (subseteq_take _ _ _ Hin). }
  apply list_elem_of_In, filter_In in Hf as [_ Hf]. by apply String.eqb_eq.
Qed.

(** The size the answer can reach: the cursor loop stops at the first
    append that reaches the page size. *)
Lemma scan_length cur nodeID now (m : nat) : forall db ws trace,
  (forall r, r ∈ cur -> (length (Workloads (pipeline r now) nodeID) <= m)%nat) ->
  (length ws <= 200)%nat ->
  (length (fst (fst (scan cur nodeID now db ws trace))) <= 200 + m)%nat.
Proof.
  induction cur as [|r0 cur IH]; intros db ws trace Hm Hws; cbn [scan].
  - cbn. lia.
  - assert (forall r, r ∈ cur ->
                      (length (Workloads (pipeline r now) nodeID) <= m)%nat) as Hm'.
    { intros r Hr. apply Hm. by right. }
    pose proof (Hm r0 ltac:(by left)) as Hr0.
    set (r := pipeline r0 now) in *.
    destruct (bool_decide (NextAction r = NextActionDelete));
      cbn [setReservationDeleted];
      destruct (negb (IsAny r [NextActionDeploy; NextActionDelete]));
      try (by apply IH);
      destruct (Z.leb_spec maxPageSize (Z.of_nat (length (ws ++ Workloads r nodeID))))
        as [Hfull|Hroom];
      try (cbn [fst]; rewrite length_app; lia);
      apply IH; try done; unfold maxPageSize in Hroom; lia.
Qed.

End PollingMore.

(** X18. A poll whose [from] does not parse as an id (an absent [from] is the
    empty text) is answered with BadRequest, even when rows wait in the queue:
    the rows read are dropped, and nothing is written. *)
Theorem workloads_bad_from (db : DB) (nodeID from : string) (now : Time) :
  parseID from = None ->
  workloads db nodeID from now
  = (None, ResponseBadRequest, db, [QueueFind nodeID maxPageSize]).
Proof.
  intros Hfrom. unfold workloads. pose proof (queued_length db nodeID) as Hq.
  destruct (Z.ltb_spec maxPageSize (Z.of_nat (length (queued db nodeID maxPageSize))));
    [lia|].
  by rewrite Hfrom.
Qed.

Lemma workloads_bad_from_witness :
  workloads fullQueue "N1" EmptyString 10
  = (None, ResponseBadRequest, fullQueue, [QueueFind "N1" maxPageSize]).
Proof. apply workloads_bad_from. reflexivity. Defined.



(** X20. The answer to a poll goes past the page size by less than what one
    reservation holds for the node: with at most [m] workloads per
    reservation on the node, at most 200 + m entries are returned. *)
Theorem workloads_overshoot_bound (db : DB) (nodeID from : string) (now : Time) (m : nat) :
  (forall r, r ∈ reservations db ->
             (length (Workloads (pipeline r now) nodeID) <= m)%nat) ->
  forall ws, fst (fst (fst (workloads db nodeID from now))) = Some ws ->
             (length ws <= 200 + m)%nat.
Proof.
  intros Hm ws. unfold workloads. pose proof (queued_length db nodeID) as Hq.
  destruct (Z.ltb_spec maxPageSize (Z.of_nat (length (queued db nodeID maxPageSize))));
    [lia|].
  destruct (parseID from) as [f|]; [|done].
  pose proof (scan_length (findFromForNode db f nodeID) nodeID now m db
                (queued db nodeID maxPageSize)
                ([QueueFind nodeID maxPageSize]
                   ++ [ReservationLastID; ReservationFind f nodeID])) as Hlen.
  destruct (scan _ _ _ _ _ _) as [[ws' db'] trace]. cbn [fst snd] in *.
  intros [= <-]. apply Hlen.
  - intros r Hr. apply Hm. unfold findFromForNode in Hr.
    apply list_elem_of_In, filter_In in Hr as [Hr _]. by apply list_elem_of_In.
  - unfold maxPageSize in *. lia.
Qed.

Lemma workloads_overshoot_bound_witness :
  exists ws,
    fst (fst (fst (workloads fullQueue "N1" "0" 10))) = Some ws
    /\ (length ws <= 200 + 1)%nat.
Proof.
  eexists. split; [reflexivity|].
  apply (workloads_overshoot_bound fullQueue "N1" "0" 10 1); [|reflexivity].
  intros r Hr. apply list_elem_of_In in Hr. destruct Hr as [<-|[]].
  apply Nat.leb_le. reflexivity.
Defined.

(** X21. Every poll re-cancels: when the first reservation the cursor yields
    comes out of its pass in Delete (also when it was in Delete before), the
    poll calls [escrow.ReservationCanceled] for it and writes Delete to the
    store, before anything else is done with the reservations. *)
Theorem workloads_cancels_on_poll (db : DB) (nodeID from : string) (now : Time)
        (f : Z) (r : Reservation) (rest : list Reservation) :
  parseID from = Some f ->
  findFromForNode db f nodeID = r :: rest ->
  NextAction (pipeline r now) = NextActionDelete ->
  exists more,
    snd (workloads db nodeID from now)
    = [QueueFind nodeID maxPageSize; ReservationLastID; ReservationFind f nodeID;
       EscrowReservationCanceled (ID r);
       ReservationSetNextAction (ID r) NextActionDelete] ++ more.
Proof.
  intros Hfrom Hcur Hdel. unfold workloads.
  pose proof (queued_length db nodeID) as Hq.
  destruct (Z.ltb_spec maxPageSize (Z.of_nat (length (queued db nodeID maxPageSize))));
    [lia|].
  rewrite Hfrom, Hcur. cbn [scan].
  assert (ID (pipeline r now) = ID r) as Hid by by rewrite pipeline_setNextAction.
  rewrite (bool_decide_eq_true_2 _ Hdel). cbn [setReservationDeleted]. rewrite Hid.
  assert (IsAny (pipeline r now) [NextActionDeploy; NextActionDelete] = true) as ->.
  { unfold IsAny. cbn. rewrite (bool_decide_eq_true_2 _ Hdel). by rewrite orb_true_r. }
  cbn [negb].
  destruct (maxPageSize <=? _).
  - exists []. by rewrite app_nil_r.
  - match goal with
    | |- context [scan rest nodeID now ?d ?w ?t] =>
        destruct (scan_extends rest nodeID now d w t) as (ws' & more & _ & H2 & _);
        destruct (scan rest nodeID now d w t) as [[ws1 db1] trace1]
    end.
    cbn [snd] in *. exists more. by rewrite H2.
Qed.

Lemma workloads_cancels_on_poll_witness :
  exists more,
    snd (workloads fullQueue "N1" "0" 60)
    = [QueueFind "N1" maxPageSize; ReservationLastID; ReservationFind 0 "N1";
       EscrowReservationCanceled (ID deploying);
       ReservationSetNextAction (ID deploying) NextActionDelete] ++ more.
Proof.
  apply (workloads_cancels_on_poll fullQueue "N1" "0" 60 0 deploying []); reflexivity.
Defined.

(* ===================================================================== *)
(** * Ids as decimal text                                                 *)
(* ===================================================================== *)

Section DecimalFacts.

Lemma parseDigits_acc (d : Decimal.uint) : forall acc : positive,
  parseDigits (NilEmpty.string_of_uint d) (Z.pos acc)
  = Some (Z.pos (Pos.of_uint_acc d acc)).
Proof.
  induction d; intros acc; cbn [NilEmpty.string_of_uint parseDigits Pos.of_uint_acc];
    [done|..];
    match goal with
    | |- context [digitOf ?c] =>
        let v := eval vm_compute in (digitOf c) in change (digitOf c) with v
    end;
    rewrite <- IHd; f_equal; lia.
Qed.

Lemma parseDigits_uint (d : Decimal.uint) :
  parseDigits (NilEmpty.string_of_uint d) 0 = Some (Z.of_N (Pos.of_uint d)).
Proof.
  induction d; cbn [NilEmpty.string_of_uint parseDigits Pos.of_uint Z.of_N]; [done|..];
    match goal with
    | |- context [digitOf ?c] =>
        let v := eval vm_compute in (digitOf c) in change (digitOf c) with v
    end;
    [exact IHd | ..];
    match goal with
    | |- context [Pos.of_uint_acc d ?k] => rewrite <- (parseDigits_acc d k)
    end; reflexivity.
Qed.

Lemma string_of_uint_nonempty (d : Decimal.uint) :
  d <> Decimal.Nil -> NilEmpty.string_of_uint d <> EmptyString.
Proof. by destruct d. Qed.

(** [ParseInt] on the text of a non-empty digit sequence. *)
Lemma ParseInt_uint (d : Decimal.uint) :
  d <> Decimal.Nil ->
  ParseInt (NilEmpty.string_of_uint d)
  = if (- 2 ^ 63 <=? Z.of_uint d) && (Z.of_uint d <? 2 ^ 63)
    then Some (Z.of_uint d) else None.
Proof.
  intros Hd. pose proof (parseDigits_uint d) as Hp.
  unfold ParseInt, Z.of_uint.
  destruct d; [done|..]; cbn [NilEmpty.string_of_uint] in *; by rewrite Hp.
Qed.

Lemma ParseInt_neg (p : positive) :
  ParseInt (String "-" (NilEmpty.string_of_uint (Pos.to_uint p)))
  = if (- 2 ^ 63 <=? Z.neg p) && (Z.neg p <? 2 ^ 63) then Some (Z.neg p) else None.
Proof.
  pose proof (parseDigits_uint (Pos.to_uint p)) as Hp.
  rewrite DecimalPos.Unsigned.of_to in Hp.
  pose proof (string_of_uint_nonempty _ (DecimalPos.Unsigned.to_uint_nonnil p)) as Hne.
  unfold ParseInt.
  destruct (NilEmpty.string_of_uint (Pos.to_uint p)) as [|c s'] eqn:Hs; [done|].
  by rewrite Hp.
Qed.

Lemma append_String (c : ascii) (a b : string) :
  String.append (String c a) b = String c (String.append a b).
Proof. reflexivity. Qed.

Lemma beforeDash_uint (d : Decimal.uint) (t : string) :
  beforeDash (String.append (NilEmpty.string_of_uint d) (String "-" t))
  = NilEmpty.string_of_uint d.
Proof.
  induction d; cbn [NilEmpty.string_of_uint]; [reflexivity|..];
    rewrite append_String; cbn [beforeDash]; by rewrite IHd.
Qed.

Lemma ParseInt_string_of_Z (z : Z) :
  ParseInt (string_of_Z z)
  = if (- 2 ^ 63 <=? z) && (z <? 2 ^ 63) then Some z else None.
Proof.
  unfold string_of_Z. destruct z as [|p|p]; cbn [Z.to_int].
  - reflexivity.
  - unfold NilZero.string_of_int, NilZero.string_of_uint.
    pose proof (DecimalPos.Unsigned.to_uint_nonnil p) as Hne.
    destruct (Pos.to_uint p) eqn:Hu; [done|..]; rewrite <- Hu;
      rewrite ParseInt_uint by (rewrite Hu; done);
      unfold Z.of_uint; rewrite DecimalPos.Unsigned.of_to; reflexivity.
  - unfold NilZero.string_of_int, NilZero.string_of_uint.
    pose proof (DecimalPos.Unsigned.to_uint_nonnil p) as Hne.
    destruct (Pos.to_uint p) eqn:Hu; [done|..]; rewrite <- Hu; apply ParseInt_neg.
Qed.

Lemma parseID_beforeDash_gwid (rid idx : Z) :
  0 <= rid < 2 ^ 63 ->
  parseID (beforeDash (gwidOf rid idx)) = Some rid.
Proof.
  intros Hrange. unfold gwidOf.
  assert (exists d, string_of_Z rid = NilEmpty.string_of_uint d) as [d Hd].
  { unfold string_of_Z. destruct rid as [|p|p]; [by exists (Decimal.D0 Decimal.Nil)| |lia].
    cbn. exists (Pos.to_uint p).
    pose proof (DecimalPos.Unsigned.to_uint_nonnil p).
    unfold NilZero.string_of_uint. by destruct (Pos.to_uint p). }
  change (String.append "-" (string_of_Z idx)) with (String "-" (string_of_Z idx)).
  rewrite Hd at 1. rewrite beforeDash_uint, <- Hd. unfold parseID.
  rewrite ParseInt_string_of_Z.
  destruct (Z.leb_spec (- 2 ^ 63) rid); [|lia].
  destruct (Z.ltb_spec rid (2 ^ 63)); [done|lia].
Qed.

End DecimalFacts.

(** X22. Ids survive the trip through text: the decimal text of an id,
    as sent in the x-last-id header, parses back to that id whenever the id
    fits in 64 bits, and is rejected otherwise. *)
Theorem parseID_string_of_Z (z : Z) :
  parseID (string_of_Z z)
  = if (- 2 ^ 63 <=? z) && (z <? 2 ^ 63) then Some z else None.
Proof. unfold parseID. apply ParseInt_string_of_Z. Qed.

(** X23. The reservation id is read back from a workload id: for a
    reservation id between 0 and 2^63, the text before the first dash of
    "<rid>-<idx>" parses to rid, whatever the index. *)
Theorem parseID_gwid (rid idx : Z) :
  0 <= rid < 2 ^ 63 ->
  parseID (beforeDash (gwidOf rid idx)) = Some rid.
Proof. apply parseID_beforeDash_gwid. Qed.

Lemma parseID_gwid_witness : parseID (beforeDash (gwidOf 9 1)) = Some 9.
Proof. apply parseID_gwid. lia. Defined.

(** X24. [GetWorkload] finds every workload of a stored reservation under the
    id its unit carries: for a reservation stored under an id between 0 and
    2^63, the id "<rid>-<idx>" of any of its workloads is answered with a
    workload of that id, never with NotFound or BadRequest. *)
Theorem workloadGet_finds_own_workloads (db : DB) (r : Reservation) (d : WorkloadDef)
        (now : Time) :
  0 <= ID r < 2 ^ 63 ->
  getByID db (ID r) = Some r ->
  d ∈ WorkloadDefs (DataReservation r) ->
  exists wr,
    workloadGet db (gwidOf (ID r) (WorkloadIdx d)) now = (Some wr, ResponseNil)
    /\ WorkloadId (RW (TheWorkload wr)) = gwidOf (ID r) (WorkloadIdx d).
Proof.
  intros Hid Hget Hd. unfold workloadGet.
  rewrite parseID_beforeDash_gwid, Hget by done.
  set (gwid := gwidOf (ID r) (WorkloadIdx d)).
  destruct (findWorkload (Workloads (pipeline r now) EmptyString) gwid) as [w|] eqn:Hw.
  - eexists. split; [reflexivity|]. cbn. by apply findWorkload_id in Hw.
  - exfalso. unfold findWorkload in Hw.
    assert (In (toWorkload (pipeline r now) d)
               (Workloads (pipeline r now) EmptyString)) as Hin.
    { unfold Workloads. apply in_map, filter_In. split; [|done].
      rewrite pipeline_setNextAction. cbn. by apply list_elem_of_In. }
    pose proof (find_none _ _ Hw _ Hin) as Hno. cbn in Hno.
    rewrite pipeline_setNextAction in Hno. cbn in Hno.
    fold gwid in Hno. by rewrite String.eqb_refl in Hno.
Qed.

Lemma workloadGet_finds_own_workloads_witness :
  exists wr,
    workloadGet fullQueue (gwidOf (ID deploying) 1) 10 = (Some wr, ResponseNil)
    /\ WorkloadId (RW (TheWorkload wr)) = gwidOf (ID deploying) 1.
Proof.
  apply (workloadGet_finds_own_workloads fullQueue deploying
           (mkWorkloadDef 1 "N1" WorkloadTypeVolume EmptyString) 10).
  - cbn. lia.
  - reflexivity.
  - by left.
Defined.

(* ===================================================================== *)
(** * Further properties of the currency admission                        *)
(* ===================================================================== *)

Section CurrencyMore.

Implicit Types (s : slice) (l : list string) (i n : nat).

Lemma singlePassRemove_sublist_len n : forall l,
  (length l <= n)%nat -> Spec.singlePassRemove l `sublist_of` l.
Proof.
  induction n as [|n IH]; intros [|c l] Hlen; cbn in Hlen; try lia; try done.
  rewrite singlePassRemove_cons. destruct (String.eqb c freeTFT).
  - destruct l as [|d l]; [apply sublist_nil_l|]. cbn in Hlen.
    apply sublist_cons, sublist_skip, IH. lia.
  - apply sublist_skip, IH. lia.
Qed.

(** What a removal leaves in the array: the length, and the last slot. *)
Lemma removeAt_last_slot s i s' :
  wf s -> removeAt s i = Done s' ->
  len s' = (len s - 1)%nat
  /\ nth (length (arr s) - 1) (arr s') EmptyString
     = nth (length (arr s) - 1) (arr s) EmptyString.
Proof.
  unfold removeAt, sliceTo, sliceFrom, bind, cap. intros Hwf.
  destruct (Nat.leb_spec i (length (arr s))) as [Hi|]; [|done].
  destruct (Nat.leb_spec (i + 1) (len s)) as [Hl|]; [|done].
  intros [= <-]. pose proof (elems_length s Hwf) as Hlen.
  assert (length (drop (i + 1) (elems s)) = len s - (i + 1))%nat as Hb
    by (rewrite length_drop; lia).
  unfold wf in Hwf. unfold appendInPlace. cbn [arr len]. split; [lia|].
  rewrite !nth_lookup. f_equal.
  rewrite lookup_app_r by (rewrite length_take; lia).
  rewrite lookup_app_r by (rewrite length_take, Hb; lia).
  rewrite lookup_drop, length_take, Hb. f_equal. lia.
Qed.

(** Once the list is shorter than the array and the last slot of the array
    holds FreeTFT, the loop cannot reach its end. *)
Lemma rangeCurrencies_short_panics n : forall i s,
  wf s -> (len s < length (arr s))%nat ->
  nth (length (arr s) - 1) (arr s) EmptyString = freeTFT ->
  (i + S n = length (arr s))%nat ->
  rangeCurrencies (S n) i s = Panic.
Proof.
  induction n as [|n IH]; intros i s Hwf Hshort Hlast Hn; cbn [rangeCurrencies].
  - replace i with (length (arr s) - 1)%nat by lia. rewrite Hlast, String.eqb_refl.
    unfold removeAt, sliceTo, sliceFrom, bind, cap.
    destruct (Nat.leb_spec (length (arr s) - 1) (length (arr s))); [|done].
    destruct (Nat.leb_spec (length (arr s) - 1 + 1) (len s)); [lia|done].
  - destruct (String.eqb (nth i (arr s) EmptyString) freeTFT).
    + destruct (removeAt s i) as [s1|] eqn:Hr; [|done]. cbn [bind].
      pose proof (removeAt_Done s i s1 Hwf Hr) as (_ & _ & Hwf1 & Hlen1).
      pose proof (removeAt_last_slot s i s1 Hwf Hr) as (Hl1 & Hlast1).
      apply IH; rewrite ?Hlen1; try done; try lia. by rewrite Hlast1.
    + apply IH; try done. lia.
Qed.

(** With FreeTFT in the last slot and one more FreeTFT ahead of the index,
    the loop panics. *)
Lemma rangeCurrencies_trailing_panics n : forall i s,
  len s = length (arr s) ->
  nth (length (arr s) - 1) (arr s) EmptyString = freeTFT ->
  freeTFT ∈ take (length (arr s) - 1 - i) (drop i (arr s)) ->
  (i + n = length (arr s))%nat ->
  rangeCurrencies n i s = Panic.
Proof.
  induction n as [|n IH]; intros i s Hfull Hlast Hin Hn.
  - replace (length (arr s) - 1 - i)%nat with 0%nat in Hin by lia.
    by apply elem_of_nil in Hin.
  - assert (i < length (arr s) - 1)%nat as Hi.
    { destruct (decide (i < length (arr s) - 1)%nat); [done|].
      replace (length (arr s) - 1 - i)%nat with 0%nat in Hin by lia.
      by apply elem_of_nil in Hin. }
    cbn [rangeCurrencies].
    destruct (lookup_lt_is_Some_2 (arr s) i ltac:(lia)) as [x Hx].
    rewrite (nth_lookup_Some _ _ _ _ Hx).
    destruct (String.eqb_spec x freeTFT) as [->|Hc].
    + assert (wf s) as Hwf by (unfold wf; lia).
      destruct (removeAt s i) as [s1|] eqn:Hr; [|done]. cbn [bind].
      pose proof (removeAt_Done s i s1 Hwf Hr) as (_ & _ & Hwf1 & Hlen1).
      pose proof (removeAt_last_slot s i s1 Hwf Hr) as (Hl1 & Hlast1).
      destruct n as [|n]; [lia|].
      apply rangeCurrencies_short_panics; rewrite ?Hlen1; try done; try lia.
      by rewrite Hlast1.
    + apply IH; try done; [|lia].
      rewrite (drop_S _ _ _ Hx) in Hin.
      replace (length (arr s) - 1 - i)%nat with (S (length (arr s) - 1 - S i)) in Hin by lia.
      cbn [take] in Hin. apply elem_of_cons in Hin as [Heq|Hin]; [congruence|done].
Qed.

End CurrencyMore.

(** X25. The admission never adds and never reorders: whatever list reaches
    escrow is a sublist of the declared currencies. *)
Theorem allowedCurrencies_sublist (nodes gateways : Directory)
        (usedNodes usedGateways declared out : list string) :
  allowedCurrencies nodes gateways usedNodes usedGateways declared = Done out ->
  out `sublist_of` declared.
Proof.
  unfold allowedCurrencies.
  destruct (_ <? _).
  - destruct (rangeCurrencies _ _ _) as [s'|] eqn:Hr; [|done]. cbn [bind].
    intros [= <-]. apply rangeCurrencies_Done in Hr; [| unfold wf; cbn; lia | cbn; lia].
    unfold elems at 2 3 in Hr. cbn in Hr. rewrite firstn_all in Hr. rewrite Hr.
    by apply (singlePassRemove_sublist_len (length declared)).
  - intros [= <-]. unfold elems, makeCopy. cbn. by rewrite firstn_all.
Qed.

Lemma allowedCurrencies_sublist_witness :
  ["FreeTFT"; "TFT"]%string `sublist_of` ["FreeTFT"; "FreeTFT"; "TFT"]%string.
Proof.
  apply (allowedCurrencies_sublist [("N1", true); ("N2", false)]%string []
           ["N1"; "N2"]%string []).
  reflexivity.
Defined.

(** X26. When a referenced node is not free-to-use, a declared list that
    ends with FreeTFT and holds FreeTFT once more before its end makes the
    handler panic: the last iteration reads the FreeTFT still sitting in the
    last slot of the array and slices past the list an earlier removal has
    shortened. *)
Theorem trailing_FreeTFT_panics (nodes gateways : Directory)
        (usedNodes usedGateways front : list string) :
  freeNodesOf nodes gateways usedNodes usedGateways < paidNodesOf usedNodes usedGateways ->
  freeTFT ∈ front ->
  allowedCurrencies nodes gateways usedNodes usedGateways (front ++ [freeTFT]) = Panic.
Proof.
  intros Hpaid Hin. unfold allowedCurrencies.
  apply Z.ltb_lt in Hpaid. rewrite Hpaid.
  rewrite rangeCurrencies_trailing_panics; [done| done | ..]; cbn [makeCopy arr len].
  - rewrite length_app. cbn.
    replace (length front + 1 - 1)%nat with (length front) by lia.
    by rewrite nth_middle.
  - rewrite length_app, drop_0. cbn [length].
    replace (length front + 1 - 1 - 0)%nat with (length front) by lia.
    by rewrite take_app_length.
  - lia.
Qed.

Lemma trailing_FreeTFT_panics_witness :
  allowedCurrencies [("N1", true); ("N2", false)]%string [] ["N1"; "N2"]%string []
                    (["FreeTFT"; "TFT"]%string ++ [freeTFT])
  = Panic.
Proof.
  apply trailing_FreeTFT_panics.
  - reflexivity.
  - by left.
Defined.

(* ===================================================================== *)
(** * Properties of the signing handlers                                  *)
(* ===================================================================== *)

Section SigningFacts.

Import signing.

Variable SignatureVerify : Reservation -> string -> string -> bool.

Implicit Types (st : Store) (db : DB) (r : Reservation) (now : Time).

Lemma find_map_ID (g : Reservation -> Reservation) (id : Z) (l : list Reservation) :
  (forall r, ID (g r) = ID r) ->
  List.find (fun r => ID r =? id) (map g l)
  = option_map g (List.find (fun r => ID r =? id) l).
Proof.
  intros Hg. induction l as [|r l IH]; cbn; [done|].
  rewrite Hg. by destruct (ID r =? id).
Qed.

Lemma getByID_PushSignatureProvision db id s :
  getByID (PushSignatureProvision db id s) id
  = option_map (fun r => withSignaturesProvision r (pushSignature (SignaturesProvision r) s))
               (getByID db id).
Proof.
  unfold getByID, PushSignatureProvision. cbn [reservations].
  rewrite find_map_ID by (intros r; by destruct (ID r =? id)).
  destruct (List.find _ (reservations db)) as [r|] eqn:Hf; cbn; [|done].
  apply find_some in Hf as [_ Hr]. by rewrite Hr.
Qed.

Lemma getByID_PushSignatureDelete db id s :
  getByID (PushSignatureDelete db id s) id
  = option_map (fun r => withSignaturesDelete r (pushSignature (SignaturesDelete r) s))
               (getByID db id).
Proof.
  unfold getByID, PushSignatureDelete. cbn [reservations].
  rewrite find_map_ID by (intros r; by destruct (ID r =? id)).
  destruct (List.find _ (reservations db)) as [r|] eqn:Hf; cbn; [|done].
  apply find_some in Hf as [_ Hr]. by rewrite Hr.
Qed.

Lemma getByID_ID db id r : getByID db id = Some r -> ID r = id.
Proof.
  unfold getByID. intros Hf. apply find_some in Hf as [_ Hr]. by apply Z.eqb_eq.
Qed.

(** A pass that ends in Sign started in Create or in Sign, and such a
    reservation is never in Deploy after a pass. *)
Lemma pipeline_Sign_from r now :
  NextAction (pipeline r now) = NextActionSign ->
  NextAction r = NextActionCreate \/ NextAction r = NextActionSign.
Proof.
  unfold pipeline. rewrite Next_cases. unfold NextCases.
  destruct r as [i c cs e na d sp sd sf rs].
  destruct na; cbn; repeat case_match; cbn; intros; try discriminate; tauto.
Qed.

Lemma pipeline_not_Deploy r now :
  NextAction r = NextActionCreate \/ NextAction r = NextActionSign ->
  NextAction (pipeline r now) <> NextActionDeploy.
Proof.
  unfold pipeline. rewrite Next_cases. unfold NextCases.
  destruct r as [i c cs e na d sp sd sf rs]. cbn.
  intros [-> | ->]; cbn; repeat case_match; cbn; discriminate.
Qed.

Lemma erase_PushSignatureProvision db id s :
  map (fun r => withSignaturesProvision r []) (reservations (PushSignatureProvision db id s))
  = map (fun r => withSignaturesProvision r []) (reservations db).
Proof.
  unfold PushSignatureProvision. cbn [reservations]. rewrite map_map.
  apply map_ext. intros r. by destruct (ID r =? id).
Qed.

End SigningFacts.





